(** * launch-control: the voice-gated audio receiver

    A shallow embedding of [agent_framework/audio/receiver.py] and
    [agent_framework/audio/transcription.py].

    Conventions of the embedding.
    - Python [float]s are exact rationals ([Q]); [int]s are [Z].
    - An audio block ([indata], one channel) is the list of its samples;
      [np.concatenate] of blocks is list concatenation.
    - [np.sqrt] has no rational value in general, so the RMS of a block is
      kept as the mean square under a formal root; the two comparisons the
      receiver makes with the threshold are decided on squares.
    - The receiver object is a record; a method is a function from the
      record to the updated record, or to a raised exception.
    - The logger and the result sink are recorded as lists of what they
      received, in order.
    - [asyncio.Queue] is the list of the items inside it; the [put] tasks
      handed to [loop.call_soon_threadsafe] and not yet completed are the
      list [scheduled]. *)

From Stdlib Require Import String Ascii.
From Stdlib Require Import List ZArith QArith Qround Bool Lia Lqa.
Import ListNotations.

(** ** Exceptions and fallible calls *)

Inductive ExcKind :=
| ZeroDivisionError
| ValueError
| RuntimeError
| IndexError
| KeyError
| AttributeError
| OtherException.

(** Instances of [Exception] (what [except Exception] catches). *)
Record Exception := Exc { exc_kind : ExcKind; exc_msg : string }.

Inductive result (A : Type) :=
| Ok (a : A)
| Raised (e : Exception).
Arguments Ok {A} a.
Arguments Raised {A} e.

Definition bind {A B : Type} (r : result A) (k : A -> result B) : result B :=
  match r with
  | Ok a => k a
  | Raised e => Raised e
  end.

Notation "x <- r ;; k" := (bind r (fun x => k))
  (at level 61, r at next level, right associativity).

(** ** Audio blocks and their energy *)

Definition ndarray := list Q.

Definition square_sum (x : ndarray) : Q :=
  fold_right (fun a acc => a * a + acc)%Q 0%Q x.

(** [np.sqrt(np.mean(np.square(indata)))]: [Sqrt m] stands for the root of
    the mean square [m]; the mean of an empty block is [nan]. *)
Inductive rms_value :=
| NaN
| Sqrt (m : Q).

Definition rms_of (indata : ndarray) : rms_value :=
  match indata with
  | [] => NaN
  | _ => Sqrt (square_sum indata / inject_Z (Z.of_nat (length indata)))
  end.

(** [rms > thr]: false on [nan]; a root is never negative. *)
Definition rms_gt (r : rms_value) (thr : Q) : bool :=
  match r with
  | NaN => false
  | Sqrt m => if Qle_bool 0 thr then negb (Qle_bool m (thr * thr)) else true
  end.

(** [rms <= thr]: false on [nan]. *)
Definition rms_le (r : rms_value) (thr : Q) : bool :=
  match r with
  | NaN => false
  | Sqrt m => if Qle_bool 0 thr then Qle_bool m (thr * thr) else false
  end.

(** [int(x)] of a float: truncation toward zero. *)
Definition int_of_float (x : Q) : Z := Z.quot (Qnum x) (Zpos (Qden x)).

(** ** Configuration *)

Record AudioConfig := mkAudioConfig {
  sample_rate : Z;
  channels : Z;
  device_index : Z;
  audio_threshold : Q;
  silence_threshold : Q;
  min_duration : Q;
  max_duration : Q;
  pre_roll : Q;
  post_roll : Q;
  queue_size : Z;
  project_id : option string;
  transcription_service_type : string;
  api_key : option string
}.

(** ** Log records, by message *)

Inductive LogRecord :=
| LogStreamStatus (status : string)     (* warning "Audio stream status: ..." *)
| LogStartedRecording                   (* debug "Started recording" *)
| LogQueued                             (* debug "Queued audio for processing" *)
| LogDropped                            (* warning "Audio queue full or event loop not set, dropping audio frame" *)
| LogEnqueueFailed (e : Exception)      (* error "Failed to enqueue audio data: ..." *)
| LogSendingAudio                       (* debug "Sending audio to Google Chirp..." *)
| LogSendingWhisper                     (* debug "Sending audio to Whisper..." *)
| LogTranscribed (text : string)        (* debug "Transcribed: ..." *)
| LogTranscriptionError (e : Exception) (* error "Transcription error: ..." *)
| LogChirpError (e : Exception)         (* error "Google Chirp transcription error: ..." *)
| LogWhisperError (e : Exception)       (* error "Whisper transcription error: ..." *)
| LogProcessingError (e : Exception)    (* error "Error processing audio: ..." *)
| LogStopped.                           (* info "Audio receiver stopped" *)

Inductive Level := DEBUG | INFO | WARNING | ERROR.

Definition level (r : LogRecord) : Level :=
  match r with
  | LogStreamStatus _ | LogDropped => WARNING
  | LogStartedRecording | LogQueued | LogSendingAudio | LogSendingWhisper
  | LogTranscribed _ => DEBUG
  | LogStopped => INFO
  | _ => ERROR
  end.

(** The records written by [_stop_recording], one per completed segment. *)
Definition is_handoff_record (r : LogRecord) : bool :=
  match r with
  | LogQueued | LogDropped | LogEnqueueFailed _ => true
  | _ => false
  end.

Definition is_start_record (r : LogRecord) : bool :=
  match r with
  | LogStartedRecording => true
  | _ => false
  end.

(** Number of segments completed, resp. recordings started, as the log
    shows them. *)
Definition handoffs (l : list LogRecord) : nat :=
  length (filter is_handoff_record l).

Definition starts (l : list LogRecord) : nat :=
  length (filter is_start_record l).

(** ** The receiver object *)

(** [self.loop]: unset before [start], then the running loop; a loop that
    was closed makes [call_soon_threadsafe] raise [RuntimeError]. *)
Inductive LoopRef :=
| LoopNone
| LoopRunning
| LoopClosed.

Record AudioReceiver := mkReceiver {
  config : AudioConfig;
  debug_mode : bool;
  audio_queue : list ndarray;
  scheduled : list ndarray;
  terminate_flag : bool;
  pre_roll_buffer : list ndarray;
  recording : bool;
  audio_frames : list ndarray;
  silence_counter : Q;
  recording_duration : Q;
  loop : LoopRef;
  log : list LogRecord;
  sink_calls : list string
}.

(** [AudioReceiver.__init__] *)
Definition init (cfg : AudioConfig) (dbg : bool) : AudioReceiver :=
  {| config := cfg; debug_mode := dbg;
     audio_queue := []; scheduled := []; terminate_flag := false;
     pre_roll_buffer := []; recording := false; audio_frames := [];
     silence_counter := 0; recording_duration := 0;
     loop := LoopNone; log := []; sink_calls := [] |}.

Definition set_pre_roll_buffer (s : AudioReceiver) (b : list ndarray) :=
  {| config := config s; debug_mode := debug_mode s;
     audio_queue := audio_queue s; scheduled := scheduled s;
     terminate_flag := terminate_flag s;
     pre_roll_buffer := b; recording := recording s;
     audio_frames := audio_frames s; silence_counter := silence_counter s;
     recording_duration := recording_duration s;
     loop := loop s; log := log s; sink_calls := sink_calls s |}.

Definition set_recording (s : AudioReceiver) (r : bool) :=
  {| config := config s; debug_mode := debug_mode s;
     audio_queue := audio_queue s; scheduled := scheduled s;
     terminate_flag := terminate_flag s;
     pre_roll_buffer := pre_roll_buffer s; recording := r;
     audio_frames := audio_frames s; silence_counter := silence_counter s;
     recording_duration := recording_duration s;
     loop := loop s; log := log s; sink_calls := sink_calls s |}.

Definition set_audio_frames (s : AudioReceiver) (f : list ndarray) :=
  {| config := config s; debug_mode := debug_mode s;
     audio_queue := audio_queue s; scheduled := scheduled s;
     terminate_flag := terminate_flag s;
     pre_roll_buffer := pre_roll_buffer s; recording := recording s;
     audio_frames := f; silence_counter := silence_counter s;
     recording_duration := recording_duration s;
     loop := loop s; log := log s; sink_calls := sink_calls s |}.

Definition set_silence_counter (s : AudioReceiver) (c : Q) :=
  {| config := config s; debug_mode := debug_mode s;
     audio_queue := audio_queue s; scheduled := scheduled s;
     terminate_flag := terminate_flag s;
     pre_roll_buffer := pre_roll_buffer s; recording := recording s;
     audio_frames := audio_frames s; silence_counter := c;
     recording_duration := recording_duration s;
     loop := loop s; log := log s; sink_calls := sink_calls s |}.

Definition set_recording_duration (s : AudioReceiver) (d : Q) :=
  {| config := config s; debug_mode := debug_mode s;
     audio_queue := audio_queue s; scheduled := scheduled s;
     terminate_flag := terminate_flag s;
     pre_roll_buffer := pre_roll_buffer s; recording := recording s;
     audio_frames := audio_frames s; silence_counter := silence_counter s;
     recording_duration := d;
     loop := loop s; log := log s; sink_calls := sink_calls s |}.

Definition set_audio_queue (s : AudioReceiver) (q : list ndarray) :=
  {| config := config s; debug_mode := debug_mode s;
     audio_queue := q; scheduled := scheduled s;
     terminate_flag := terminate_flag s;
     pre_roll_buffer := pre_roll_buffer s; recording := recording s;
     audio_frames := audio_frames s; silence_counter := silence_counter s;
     recording_duration := recording_duration s;
     loop := loop s; log := log s; sink_calls := sink_calls s |}.

Definition set_scheduled (s : AudioReceiver) (q : list ndarray) :=
  {| config := config s; debug_mode := debug_mode s;
     audio_queue := audio_queue s; scheduled := q;
     terminate_flag := terminate_flag s;
     pre_roll_buffer := pre_roll_buffer s; recording := recording s;
     audio_frames := audio_frames s; silence_counter := silence_counter s;
     recording_duration := recording_duration s;
     loop := loop s; log := log s; sink_calls := sink_calls s |}.

Definition set_terminate_flag (s : AudioReceiver) (b : bool) :=
  {| config := config s; debug_mode := debug_mode s;
     audio_queue := audio_queue s; scheduled := scheduled s;
     terminate_flag := b;
     pre_roll_buffer := pre_roll_buffer s; recording := recording s;
     audio_frames := audio_frames s; silence_counter := silence_counter s;
     recording_duration := recording_duration s;
     loop := loop s; log := log s; sink_calls := sink_calls s |}.

Definition set_loop (s : AudioReceiver) (l : LoopRef) :=
  {| config := config s; debug_mode := debug_mode s;
     audio_queue := audio_queue s; scheduled := scheduled s;
     terminate_flag := terminate_flag s;
     pre_roll_buffer := pre_roll_buffer s; recording := recording s;
     audio_frames := audio_frames s; silence_counter := silence_counter s;
     recording_duration := recording_duration s;
     loop := l; log := log s; sink_calls := sink_calls s |}.

(** [self.logger.<level>(...)] *)
Definition logger (s : AudioReceiver) (r : LogRecord) :=
  {| config := config s; debug_mode := debug_mode s;
     audio_queue := audio_queue s; scheduled := scheduled s;
     terminate_flag := terminate_flag s;
     pre_roll_buffer := pre_roll_buffer s; recording := recording s;
     audio_frames := audio_frames s; silence_counter := silence_counter s;
     recording_duration := recording_duration s;
     loop := loop s; log := log s ++ [r]; sink_calls := sink_calls s |}.

(** The sink [on_transcription] is called with [text]. *)
Definition call_sink (s : AudioReceiver) (text : string) :=
  {| config := config s; debug_mode := debug_mode s;
     audio_queue := audio_queue s; scheduled := scheduled s;
     terminate_flag := terminate_flag s;
     pre_roll_buffer := pre_roll_buffer s; recording := recording s;
     audio_frames := audio_frames s; silence_counter := silence_counter s;
     recording_duration := recording_duration s;
     loop := loop s; log := log s; sink_calls := sink_calls s ++ [text] |}.

(** ** The frame-delivery side *)

(** [asyncio.Queue.full()]: a queue of [maxsize <= 0] is never full. *)
Definition full (s : AudioReceiver) : bool :=
  let maxsize := queue_size (config s) in
  if (maxsize <=? 0)%Z then false
  else (maxsize <=? Z.of_nat (length (audio_queue s)))%Z.

(** [AudioReceiver._should_stop_recording] *)
Definition _should_stop_recording (s : AudioReceiver) : bool :=
  (Qle_bool (silence_threshold (config s)) (silence_counter s)
   || Qle_bool (max_duration (config s)) (recording_duration s))
  && Qle_bool (min_duration (config s)) (recording_duration s).

(** The [try] block of [_stop_recording]: the put is scheduled on the loop
    when the loop is set and the queue is not full; otherwise the audio is
    dropped with a warning. [call_soon_threadsafe] raises [RuntimeError] on
    a closed loop, which the block catches and logs. *)
Definition enqueue_try (s : AudioReceiver) (audio_data : ndarray)
    : AudioReceiver :=
  match loop s with
  | LoopNone => logger s LogDropped
  | l =>
      if full s then logger s LogDropped
      else
        match l with
        | LoopClosed =>
            logger s (LogEnqueueFailed
                        (Exc RuntimeError "Event loop is closed"%string))
        | _ =>
            logger (set_scheduled s (scheduled s ++ [audio_data])) LogQueued
        end
  end.

(** [AudioReceiver._stop_recording]; [np.concatenate] refuses an empty
    list. *)
Definition _stop_recording (s : AudioReceiver) : result AudioReceiver :=
  let s := set_recording s false in
  match audio_frames s with
  | [] =>
      Raised (Exc ValueError "need at least one array to concatenate"%string)
  | _ :: _ =>
      let audio_data := concat (audio_frames s) in
      let s := enqueue_try s audio_data in
      Ok (set_audio_frames s [])
  end.

(** [AudioReceiver._start_recording] *)
Definition _start_recording (s : AudioReceiver) : AudioReceiver :=
  let s := set_recording s true in
  let s := set_audio_frames s (pre_roll_buffer s) in
  let s := set_silence_counter s 0 in
  let s := set_recording_duration s 0 in
  logger s LogStartedRecording.

(** The state of [_handle_recording] when it reaches the test
    [if self._should_stop_recording()], given the frame duration. *)
Definition record_frame (s : AudioReceiver) (indata : ndarray)
    (rms : rms_value) (frame_duration : Q) : AudioReceiver :=
  let s := set_audio_frames s (audio_frames s ++ [indata]) in
  let s := set_recording_duration s (recording_duration s + frame_duration) in
  if rms_le rms (audio_threshold (config s))
  then set_silence_counter s (silence_counter s + frame_duration)
  else set_silence_counter s 0.

(** [frames / self.config.sample_rate] *)
Definition frame_duration (s : AudioReceiver) (frames : Z) : Q :=
  (inject_Z frames / inject_Z (sample_rate (config s)))%Q.

(** [AudioReceiver._handle_recording] *)
Definition _handle_recording (s : AudioReceiver) (indata : ndarray)
    (rms : rms_value) (frames : Z) : result AudioReceiver :=
  if (sample_rate (config s) =? 0)%Z
  then Raised (Exc ZeroDivisionError "division by zero"%string)
  else
    let s := record_frame s indata rms (frame_duration s frames) in
    if _should_stop_recording s then _stop_recording s else Ok s.

(** [int(self.config.pre_roll * self.config.sample_rate / frames)] *)
Definition pre_roll_frames (cfg : AudioConfig) (frames : Z) : Z :=
  int_of_float (pre_roll cfg * inject_Z (sample_rate cfg) / inject_Z frames).

(** The pre-roll update of [_audio_callback]: append, then drop the oldest
    block when the buffer is longer than [pre_roll_frames]. *)
Definition update_pre_roll (s : AudioReceiver) (indata : ndarray)
    (frames : Z) : AudioReceiver :=
  let s := set_pre_roll_buffer s (pre_roll_buffer s ++ [indata]) in
  if (pre_roll_frames (config s) frames <? Z.of_nat (length (pre_roll_buffer s)))%Z
  then set_pre_roll_buffer s (tl (pre_roll_buffer s))
  else s.

(** [if status: self.logger.warning(...)]; [status] is [None] when the
    driver reports no flag. *)
Definition warn_status (s : AudioReceiver) (status : option string)
    : AudioReceiver :=
  match status with
  | Some flags => logger s (LogStreamStatus flags)
  | None => s
  end.

(** The callback from the pre-roll update to the test
    [if self.recording]: a recording starts when the receiver is idle and
    the block is above the threshold. *)
Definition detect (s : AudioReceiver) (indata : ndarray) (rms : rms_value)
    (frames : Z) : AudioReceiver :=
  let s := update_pre_roll s indata frames in
  if negb (recording s) && rms_gt rms (audio_threshold (config s))
  then _start_recording s
  else s.

(** [AudioReceiver._audio_callback] *)
Definition _audio_callback (s : AudioReceiver) (indata : ndarray)
    (frames : Z) (status : option string) : result AudioReceiver :=
  let s := warn_status s status in
  let rms := rms_of indata in
  if (frames =? 0)%Z
  then Raised (Exc ZeroDivisionError "float division by zero"%string)
  else
    let s := detect s indata rms frames in
    if recording s then _handle_recording s indata rms frames else Ok s.

(** One call of the driver. *)
Record Frame := mkFrame {
  indata : ndarray;
  frames : Z;
  status : option string
}.

(** The driver delivers the frames of [fs] in order. *)
Fixpoint feed (s : AudioReceiver) (fs : list Frame) : result AudioReceiver :=
  match fs with
  | [] => Ok s
  | f :: fs' =>
      s' <- _audio_callback s (indata f) (frames f) (status f) ;;
      feed s' fs'
  end.

(** The frame is above the threshold, as the callback tests it. *)
Definition loud (cfg : AudioConfig) (f : Frame) : bool :=
  rms_gt (rms_of (indata f)) (audio_threshold cfg).

(** [recording_duration] after the frames [fs], from the value [acc]. *)
Definition accumulate (cfg : AudioConfig) (acc : Q) (fs : list Frame) : Q :=
  fold_left
    (fun a f => (a + inject_Z (frames f) / inject_Z (sample_rate cfg))%Q)
    fs acc.

(** ** The event loop side of the queue *)

(** A scheduled [audio_queue.put(audio_data)] completes: [asyncio.Queue.put]
    waits while the queue is full, and the tasks run in the order in which
    [call_soon_threadsafe] registered them. *)
Definition put_step (s : AudioReceiver) : option AudioReceiver :=
  match scheduled s with
  | [] => None
  | a :: rest =>
      if full s then None
      else Some (set_scheduled (set_audio_queue s (audio_queue s ++ [a])) rest)
  end.

(** What is on its way to the consumer, oldest first. *)
Definition channel (s : AudioReceiver) : list ndarray :=
  audio_queue s ++ scheduled s.

(** ** Transcription services *)

Record TranscriptionConfig := mkTranscriptionConfig {
  tc_sample_rate : Z;
  language : string;
  tc_debug_mode : bool;
  tc_project_id : option string;
  tc_api_key : option string
}.

Record TranscriptionResult := mkTranscriptionResult {
  text : string;
  confidence : Q;
  result_language : string;
  metadata : option (list (string * string))
}.

(** [str.strip()] on ASCII text. *)
Definition is_space (c : ascii) : bool :=
  let n := nat_of_ascii c in
  ((9 <=? n) && (n <=? 13) || (28 <=? n) && (n <=? 32))%nat.

Fixpoint lstrip (s : string) : string :=
  match s with
  | EmptyString => EmptyString
  | String c s' => if is_space c then lstrip s' else s
  end.

Fixpoint rstrip (s : string) : string :=
  match s with
  | EmptyString => EmptyString
  | String c s' =>
      match rstrip s' with
      | EmptyString => if is_space c then EmptyString else String c EmptyString
      | r => String c r
      end
  end.

Definition strip (s : string) : string := rstrip (lstrip s).

(** [s.split('-')[0]] *)
Fixpoint before_dash (s : string) : string :=
  match s with
  | EmptyString => EmptyString
  | String c s' => if Ascii.eqb c "-"%char then EmptyString
                   else String c (before_dash s')
  end.

(** Truth value of a [str]. *)
Definition truthy (s : string) : bool :=
  match s with
  | EmptyString => false
  | String _ _ => true
  end.

(** The abstract base class: [transcribe] gives back what the coroutine
    returns or raises, and what it logged. *)
Class TranscriptionService (B : Type) := {
  transcribe : B -> ndarray -> result (option TranscriptionResult) * list LogRecord
}.

(** [TranscriptionService._prepare_audio]: [sf_write] is soundfile writing
    the WAV bytes. *)
Definition _prepare_audio (sf_write : ndarray -> Z -> result string)
    (cfg : TranscriptionConfig) (audio_data : ndarray) : result string :=
  sf_write audio_data (tc_sample_rate cfg).

(** *** Google Chirp *)

Record RecognizeRequest := mkRecognizeRequest {
  recognizer : string;
  language_codes : list string;
  model : string;
  content : string
}.

Record Alternative := mkAlternative {
  transcript : string;
  alt_confidence : Q
}.

Record SpeechResult := mkSpeechResult { alternatives : list Alternative }.

Record RecognizeResponse := mkRecognizeResponse { results : list SpeechResult }.

(** The service object: its configuration, the WAV writer, and
    [self.client.recognize] ([None] before [initialize]). *)
Record GoogleChirpService := mkGoogleChirpService {
  chirp_config : TranscriptionConfig;
  chirp_sf_write : ndarray -> Z -> result string;
  chirp_client : option (RecognizeRequest -> result RecognizeResponse)
}.

Definition chirp_request (cfg : TranscriptionConfig) (audio_content : string)
    : RecognizeRequest :=
  {| recognizer :=
       ("projects/" ++ match tc_project_id cfg with
                       | Some p => p
                       | None => "None"
                       end ++ "/locations/us-central1/recognizers/_")%string;
     language_codes := [language cfg];
     model := "chirp"%string;
     content := audio_content |}.

(** The body of the [try] of [GoogleChirpService.transcribe]. *)
Definition chirp_try (svc : GoogleChirpService) (audio_data : ndarray)
    : result (option TranscriptionResult) * list LogRecord :=
  match _prepare_audio (chirp_sf_write svc) (chirp_config svc) audio_data with
  | Raised e => (Raised e, [])
  | Ok audio_content =>
      let request := chirp_request (chirp_config svc) audio_content in
      match chirp_client svc with
      | None =>
          (Raised (Exc AttributeError "no attribute client"%string),
           [LogSendingAudio])
      | Some recognize =>
          match recognize request with
          | Raised e => (Raised e, [LogSendingAudio])
          | Ok response =>
              match results response with
              | [] => (Ok None, [LogSendingAudio])
              | r :: _ =>
                  match alternatives r with
                  | [] =>
                      (Raised (Exc IndexError "list index out of range"%string),
                       [LogSendingAudio])
                  | a :: _ =>
                      (Ok (Some {| text := strip (transcript a);
                                   confidence := alt_confidence a;
                                   result_language := language (chirp_config svc);
                                   metadata := None |}),
                       [LogSendingAudio])
                  end
              end
          end
      end
  end.

(** [GoogleChirpService.transcribe] *)
Definition chirp_transcribe (svc : GoogleChirpService) (audio_data : ndarray)
    : result (option TranscriptionResult) * list LogRecord :=
  match chirp_try svc audio_data with
  | (Raised e, l) => (Ok None, l ++ [LogChirpError e])
  | (Ok r, l) => (Ok r, l)
  end.

#[export] Instance GoogleChirp : TranscriptionService GoogleChirpService :=
  {| transcribe := chirp_transcribe |}.

(** *** OpenAI Whisper *)

Record WhisperRequest := mkWhisperRequest {
  whisper_model : string;
  whisper_file : string;
  whisper_file_name : string;
  whisper_language : string
}.

(** The response is a dictionary. *)
Definition dict := list (string * string).

Fixpoint getitem (d : dict) (k : string) : result string :=
  match d with
  | [] => Raised (Exc KeyError k)
  | (k', v) :: d' => if String.eqb k' k then Ok v else getitem d' k
  end.

Record OpenAIWhisperService := mkOpenAIWhisperService {
  whisper_config : TranscriptionConfig;
  whisper_sf_write : ndarray -> Z -> result string;
  whisper_client : option (WhisperRequest -> result dict)
}.

(** The body of the [try] of [OpenAIWhisperService.transcribe]. *)
Definition whisper_try (svc : OpenAIWhisperService) (audio_data : ndarray)
    : result (option TranscriptionResult) * list LogRecord :=
  match _prepare_audio (whisper_sf_write svc) (whisper_config svc) audio_data with
  | Raised e => (Raised e, [])
  | Ok audio_buffer =>
      match whisper_client svc with
      | None =>
          (Raised (Exc AttributeError "no attribute client"%string),
           [LogSendingWhisper])
      | Some create =>
          match create {| whisper_model := "whisper-1"%string;
                          whisper_file := audio_buffer;
                          whisper_file_name := "audio.wav"%string;
                          whisper_language :=
                            before_dash (language (whisper_config svc)) |} with
          | Raised e => (Raised e, [LogSendingWhisper])
          | Ok response =>
              match getitem response "text"%string with
              | Raised e => (Raised e, [LogSendingWhisper])
              | Ok t =>
                  (Ok (Some {| text := strip t;
                               confidence := 1;
                               result_language := language (whisper_config svc);
                               metadata := None |}),
                   [LogSendingWhisper])
              end
          end
      end
  end.

(** [OpenAIWhisperService.transcribe] *)
Definition whisper_transcribe (svc : OpenAIWhisperService) (audio_data : ndarray)
    : result (option TranscriptionResult) * list LogRecord :=
  match whisper_try svc audio_data with
  | (Raised e, l) => (Ok None, l ++ [LogWhisperError e])
  | (Ok r, l) => (Ok r, l)
  end.

#[export] Instance OpenAIWhisper : TranscriptionService OpenAIWhisperService :=
  {| transcribe := whisper_transcribe |}.

(** ** The processing side *)

Definition logger_all (s : AudioReceiver) (l : list LogRecord) : AudioReceiver :=
  fold_left logger l s.

Inductive DrainPc :=
| AtWhile      (* about to test [self.terminate_flag.is_set()] *)
| AtGet        (* suspended in [await self.audio_queue.get()] *)
| Returned.    (* the coroutine has returned *)

Section Processing.

Context {B : Type} `{TranscriptionService B}.

(** The service of the receiver, the sink [on_transcription] and
    [_save_debug_data], which writes two files. *)
Variable transcription_service : B.
Variable on_transcription : string -> result unit.
Variable _save_debug_data : ndarray -> string -> result unit.

(** The body of the [try] of [AudioReceiver._transcribe_audio]. *)
Definition transcribe_try (s : AudioReceiver) (audio_data : ndarray)
    : AudioReceiver * result unit :=
  let s := logger s LogSendingAudio in
  let '(r, l) := transcribe transcription_service audio_data in
  let s := logger_all s l in
  match r with
  | Raised e => (s, Raised e)
  | Ok None => (s, Ok tt)
  | Ok (Some res) =>
      if truthy (text res) then
        let s := logger s (LogTranscribed (text res)) in
        let s := call_sink s (text res) in
        match on_transcription (text res) with
        | Raised e => (s, Raised e)
        | Ok _ =>
            if debug_mode s
            then (s, _save_debug_data audio_data (text res))
            else (s, Ok tt)
        end
      else (s, Ok tt)
  end.

(** [AudioReceiver._transcribe_audio] *)
Definition _transcribe_audio (s : AudioReceiver) (audio_data : ndarray)
    : AudioReceiver :=
  match transcribe_try s audio_data with
  | (s', Raised e) => logger s' (LogTranscriptionError e)
  | (s', Ok _) => s'
  end.

(** One move of [AudioReceiver._process_audio_queue]; [None] when the
    coroutine cannot move: it has returned, or it is suspended in
    [get()] on an empty queue. The items of the queue are arrays, so the
    test [audio_data is not None] holds. *)
Definition drain_step (pc : DrainPc) (s : AudioReceiver)
    : option (DrainPc * AudioReceiver) :=
  match pc with
  | AtWhile => if terminate_flag s then Some (Returned, s) else Some (AtGet, s)
  | AtGet =>
      match audio_queue s with
      | [] => None
      | audio_data :: rest =>
          Some (AtWhile, _transcribe_audio (set_audio_queue s rest) audio_data)
      end
  | Returned => None
  end.

(** The item a move of the drain loop takes out of the queue. *)
Definition dequeued (pc : DrainPc) (s : AudioReceiver) : list ndarray :=
  match pc, audio_queue s with
  | AtGet, audio_data :: _ => [audio_data]
  | _, _ => []
  end.

(** The receiver at work: the driver delivers a frame, the event loop
    completes a scheduled [put], or the drain loop moves. The label is
    what the consumer dequeued in the step. *)
Inductive sys_step
  : DrainPc * AudioReceiver -> list ndarray -> DrainPc * AudioReceiver -> Prop :=
| sys_frame pc s f s' :
    _audio_callback s (indata f) (frames f) (status f) = Ok s' ->
    sys_step (pc, s) [] (pc, s')
| sys_put pc s s' :
    put_step s = Some s' ->
    sys_step (pc, s) [] (pc, s')
| sys_drain pc s pc' s' :
    drain_step pc s = Some (pc', s') ->
    sys_step (pc, s) (dequeued pc s) (pc', s').

Inductive sys_run
  : DrainPc * AudioReceiver -> list ndarray -> DrainPc * AudioReceiver -> Prop :=
| run_nil c : sys_run c [] c
| run_cons c1 got1 c2 got2 c3 :
    sys_step c1 got1 c2 -> sys_run c2 got2 c3 ->
    sys_run c1 (got1 ++ got2) c3.

(** The steps left once the stream is closed: no frame arrives. *)
Inductive quiet_step
  : DrainPc * AudioReceiver -> DrainPc * AudioReceiver -> Prop :=
| quiet_put pc s s' :
    put_step s = Some s' -> quiet_step (pc, s) (pc, s')
| quiet_drain pc s pc' s' :
    drain_step pc s = Some (pc', s') -> quiet_step (pc, s) (pc', s').

End Processing.

(** The effect of [AudioReceiver.stop] on the receiver: the flag is set;
    closing the stream and [cleanup] (a no-op in both services) touch
    nothing else of it. *)
Definition stop (s : AudioReceiver) : AudioReceiver :=
  logger (set_terminate_flag s true) LogStopped.

(** ** The words of the specification *)

(** "N = ceil(pre_roll_seconds x sample_rate / frame_len)" *)
Definition spec_capacity (cfg : AudioConfig) (frame_len : Z) : Z :=
  Qceiling (pre_roll cfg * inject_Z (sample_rate cfg) / inject_Z frame_len).

(** "the most recent N frames", in temporal order *)
Definition most_recent {A : Type} (n : nat) (l : list A) : list A :=
  skipn (length l - n) l.

(** "the backend produces no recognizable speech": the recognizer answers
    without a result, resp. with a text that is blank. *)
Definition chirp_no_speech (response : RecognizeResponse) : Prop :=
  results response = [].

Definition whisper_no_speech (response : dict) : Prop :=
  exists t, getitem response "text"%string = Ok t /\ strip t = EmptyString.

(** ** The callback as a total function

    What the methods compute when they raise nothing; the lemmas
    [stop_recording_ok] and [audio_callback_ok] below relate them to the
    methods. *)

(** [_stop_recording] on a non-empty utterance buffer. *)
Definition after_stop (s : AudioReceiver) : AudioReceiver :=
  set_audio_frames
    (enqueue_try (set_recording s false) (concat (audio_frames s))) [].

(** The receiver at the test [if self._should_stop_recording()]. *)
Definition at_stop_test (s : AudioReceiver) (f : Frame) : AudioReceiver :=
  let s := detect (warn_status s (status f)) (indata f) (rms_of (indata f))
             (frames f) in
  record_frame s (indata f) (rms_of (indata f)) (frame_duration s (frames f)).

Definition after_callback (s : AudioReceiver) (f : Frame) : AudioReceiver :=
  let s1 := detect (warn_status s (status f)) (indata f) (rms_of (indata f))
              (frames f) in
  if recording s1 then
    let s2 := at_stop_test s f in
    if _should_stop_recording s2 then after_stop s2 else s2
  else s1.

(** The hand-off is accepted: the loop is running and the queue has room. *)
Definition accepts (s : AudioReceiver) : bool :=
  match loop s with
  | LoopRunning => negb (full s)
  | _ => false
  end.

(** The accumulated duration [t] of the recording in progress; an idle
    receiver has accumulated nothing. *)
Definition accumulated (s : AudioReceiver) (t : Q) : Prop :=
  if recording s then recording_duration s = t else t = 0%Q.

(** ** Data of the examples *)

(** A driver at 4 Hz delivering one sample per call: a frame lasts 0.25 s. *)
Definition cfg_example (thr sil mn mx pre : Q) (qsize : Z) : AudioConfig :=
  {| sample_rate := 4; channels := 1; device_index := 1;
     audio_threshold := thr; silence_threshold := sil;
     min_duration := mn; max_duration := mx;
     pre_roll := pre; post_roll := 1 # 2; queue_size := qsize;
     project_id := None;
     transcription_service_type := "google-chirp"%string;
     api_key := None |}.

(** The receiver after [start] has set [self.loop]. *)
Definition started (cfg : AudioConfig) : AudioReceiver :=
  set_loop (init cfg false) LoopRunning.

Definition loud_frame : Frame :=
  {| indata := [1%Q]; frames := 1; status := None |}.

Definition quiet_frame : Frame :=
  {| indata := [0%Q]; frames := 1; status := None |}.

(** Threshold 0.5, silence 0.5 s, at least 0.5 s, at most 30 s, pre-roll
    0.25 s, a queue of ten. *)
Definition cfg_short : AudioConfig :=
  cfg_example (1 # 2) (1 # 2) (1 # 2) 30 (1 # 4) 10.

(** A pre-roll of 0.375 s: one and a half frames. *)
Definition cfg_pre_roll : AudioConfig :=
  cfg_example (1 # 2) (1 # 2) (1 # 2) 30 (3 # 8) 10.

Definition soft_frame : Frame :=
  {| indata := [(1 # 4)%Q]; frames := 1; status := None |}.

(** At least 1 s, silence 0.25 s. *)
Definition cfg_long_min : AudioConfig :=
  cfg_example (1 # 2) (1 # 4) 1 30 (1 # 4) 10.

(** At most 0.5 s, at least 0.25 s. *)
Definition cfg_short_max : AudioConfig :=
  cfg_example (1 # 2) (1 # 2) (1 # 4) (1 # 2) (1 # 4) 10.

(** At most 0.5 s but at least 1 s. *)
Definition cfg_min_over_max : AudioConfig :=
  cfg_example (1 # 2) (1 # 2) 1 (1 # 2) (1 # 4) 10.

(** No pre-roll. *)
Definition cfg_no_pre_roll : AudioConfig :=
  cfg_example (1 # 2) (1 # 2) (1 # 2) 30 0 10.

(** Services whose recognizer hears nothing, a sink and a debug writer
    that succeed. *)
Definition tc_example : TranscriptionConfig :=
  {| tc_sample_rate := 4; language := "en-US"%string; tc_debug_mode := false;
     tc_project_id := Some "demo"%string; tc_api_key := Some "key"%string |}.

Definition chirp_silent : GoogleChirpService :=
  {| chirp_config := tc_example;
     chirp_sf_write := fun _ _ => Ok "RIFF"%string;
     chirp_client := Some (fun _ => Ok {| results := [] |}) |}.

Definition whisper_blank : OpenAIWhisperService :=
  {| whisper_config := tc_example;
     whisper_sf_write := fun _ _ => Ok "RIFF"%string;
     whisper_client := Some (fun _ => Ok [("text", " ")]%string) |}.

Definition whisper_down : OpenAIWhisperService :=
  {| whisper_config := tc_example;
     whisper_sf_write := fun _ _ => Ok "RIFF"%string;
     whisper_client :=
       Some (fun _ => Raised (Exc OtherException "connection refused"%string)) |}.

Definition sink_ok : string -> result unit := fun _ => Ok tt.

Definition save_ok : ndarray -> string -> result unit := fun _ _ => Ok tt.

(** Silence 0.75 s, at least 0.5 s, a pre-roll of two frames. *)
Definition cfg_scenario : AudioConfig :=
  cfg_example (1 # 2) (3 # 4) (1 # 2) 30 (1 # 2) 10.

(** A receiver that has just started to record. *)
Definition recording_example : AudioReceiver :=
  after_callback (started cfg_short) loud_frame.

(** ** The agent

    [agent_framework/core/base_agent.py] and
    [launch_control/agents/deployment_agent.py]. [datetime.now()] is a
    reading of the clock, given as an integer. *)

Record Message := mkMessage {
  msg_content : string;
  msg_timestamp : Z;
  msg_sender : string;
  msg_metadata : option (list (string * string))
}.

Record ConversationHistory := mkConversationHistory {
  messages : list Message;
  max_length : Z
}.

(** [ConversationHistory.__init__] *)
Definition new_history (max_len : Z) : ConversationHistory :=
  {| messages := []; max_length := max_len |}.

(** [ConversationHistory.add_message] *)
Definition add_message (h : ConversationHistory) (message : Message)
    : ConversationHistory :=
  let ms := messages h ++ [message] in
  {| messages := if (max_length h <? Z.of_nat (length ms))%Z then tl ms else ms;
     max_length := max_length h |}.

(** The slice [l[i:]]: a negative index counts from the end, and an index
    out of range is clipped. *)
Definition slice_from {A : Type} (l : list A) (i : Z) : list A :=
  let n := Z.of_nat (length l) in
  let start := if (i <? 0)%Z then Z.max 0 (n + i) else Z.min i n in
  skipn (Z.to_nat start) l.

(** [ConversationHistory.get_recent_messages]: [self.messages[-count:]] *)
Definition get_recent_messages (h : ConversationHistory) (count : Z)
    : list Message :=
  slice_from (messages h) (- count).

Inductive AgentState :=
| IDLE
| LISTENING
| PROCESSING
| RESPONDING
| AGENT_ERROR.

(** What the logger of the agent is given. *)
Inductive AgentLogRecord :=
| AgentTranscribed (text : string)      (* info "Transcribed: ..." *)
| AgentResponse (response : string).    (* info "Response: ..." *)

Record DeploymentAgent := mkDeploymentAgent {
  agent_id : string;
  state : AgentState;
  conversation_history : ConversationHistory;
  agent_log : list AgentLogRecord
}.

(** [BaseAgent.__init__], as [DeploymentAgent.__init__] calls it: the
    history keeps 100 messages. *)
Definition new_agent (id : string) : DeploymentAgent :=
  {| agent_id := id; state := IDLE;
     conversation_history := new_history 100; agent_log := [] |}.

(** [BaseAgent.get_conversation_history] *)
Definition get_conversation_history (a : DeploymentAgent)
    (message_count : option Z) : list Message :=
  match message_count with
  | None => messages (conversation_history a)
  | Some count => get_recent_messages (conversation_history a) count
  end.

(** The values [process_input] may be given. *)
Inductive PyValue :=
| PyStr (s : string)
| PyInt (z : Z)
| PyFloat (q : Q)
| PyBool (b : bool)
| PyNone.

(** [DeploymentAgent.process_input] *)
Definition process_input (input_data : PyValue) : option string :=
  match input_data with
  | PyStr s => Some ("Received: " ++ s)%string
  | _ => None
  end.

Definition agent_logger (a : DeploymentAgent) (r : AgentLogRecord) :=
  {| agent_id := agent_id a; state := state a;
     conversation_history := conversation_history a;
     agent_log := agent_log a ++ [r] |}.

Definition agent_add_message (a : DeploymentAgent) (m : Message) :=
  {| agent_id := agent_id a; state := state a;
     conversation_history := add_message (conversation_history a) m;
     agent_log := agent_log a |}.

(** [DeploymentAgent._send_response] *)
Definition _send_response (now : Z) (a : DeploymentAgent) (response : string)
    : DeploymentAgent :=
  let a := agent_logger a (AgentResponse response) in
  agent_add_message a
    {| msg_content := response; msg_timestamp := now;
       msg_sender := agent_id a; msg_metadata := None |}.

(** [DeploymentAgent._handle_transcription]; [now1] and [now2] are the
    two readings of the clock. *)
Definition _handle_transcription (now1 now2 : Z) (a : DeploymentAgent)
    (text : string) : DeploymentAgent :=
  let a := agent_logger a (AgentTranscribed text) in
  let a := agent_add_message a
             {| msg_content := text; msg_timestamp := now1;
                msg_sender := "user"%string; msg_metadata := None |} in
  match process_input (PyStr text) with
  | Some response =>
      if truthy response then _send_response now2 a response else a
  | None => a
  end.

(** ** Building, starting and stopping the receiver *)

(** What [create_transcription_service] returns. *)
Inductive AnyService :=
| ChirpService (svc : GoogleChirpService)
| WhisperService (svc : OpenAIWhisperService).

#[export] Instance AnyServiceTranscription : TranscriptionService AnyService :=
  {| transcribe := fun svc audio_data =>
       match svc with
       | ChirpService c => chirp_transcribe c audio_data
       | WhisperService w => whisper_transcribe w audio_data
       end |}.

(** [create_transcription_service]; the service is built without a
    client. *)
Definition create_transcription_service
    (sf_write : ndarray -> Z -> result string) (service_type : string)
    (config : TranscriptionConfig) : result AnyService :=
  if String.eqb service_type "google-chirp" then
    Ok (ChirpService {| chirp_config := config; chirp_sf_write := sf_write;
                        chirp_client := None |})
  else if String.eqb service_type "openai-whisper" then
    Ok (WhisperService {| whisper_config := config;
                          whisper_sf_write := sf_write;
                          whisper_client := None |})
  else Raised (Exc ValueError ("Unknown service type: " ++ service_type)%string).

(** [not x] for an optional string: [None] and the empty string. *)
Definition falsy (o : option string) : bool :=
  match o with
  | None => true
  | Some s => negb (truthy s)
  end.

(** The client libraries: building [SpeechClient(...)] gives its
    [recognize] or raises; [openai] is a module. *)
Record Vendors := mkVendors {
  speech_client : result (RecognizeRequest -> result RecognizeResponse);
  openai_module : WhisperRequest -> result dict
}.

(** [GoogleChirpService.initialize] and [OpenAIWhisperService.initialize] *)
Definition initialize (v : Vendors) (svc : AnyService) : result AnyService :=
  match svc with
  | ChirpService c =>
      if falsy (tc_project_id (chirp_config c)) then
        Raised (Exc ValueError
                  "project_id must be set for GoogleChirpService"%string)
      else
        client <- speech_client v ;;
        Ok (ChirpService {| chirp_config := chirp_config c;
                            chirp_sf_write := chirp_sf_write c;
                            chirp_client := Some client |})
  | WhisperService w =>
      if falsy (tc_api_key (whisper_config w)) then
        Raised (Exc ValueError
                  "api_key must be set for OpenAIWhisperService"%string)
      else
        Ok (WhisperService {| whisper_config := whisper_config w;
                              whisper_sf_write := whisper_sf_write w;
                              whisper_client := Some (openai_module v) |})
  end.

(** The configuration [AudioReceiver.__init__] gives to the service. *)
Definition transcription_config_of (config : AudioConfig) (debug : bool)
    : TranscriptionConfig :=
  {| tc_sample_rate := sample_rate config; language := "en-US"%string;
     tc_debug_mode := debug; tc_project_id := project_id config;
     tc_api_key := api_key config |}.

(** The audio driver: [sd.rec] followed by [sd.wait] gives the recording,
    [sd.InputStream(...)] the stream, and the stream is started, stopped
    and closed; each may raise. *)
Record Driver := mkDriver {
  sd_rec : Z -> result ndarray;
  open_stream : result unit;
  start_stream : result unit;
  stop_stream : result unit;
  close_stream : result unit
}.

Inductive StreamState :=
| StreamOpened
| StreamActive
| StreamClosed.

(** The records of [start] and of [_test_audio_input]. *)
Inductive StartRecord :=
| LogTesting (duration : Z)             (* info "Testing audio input for ... seconds..." *)
| LogRmsLevel (rms : rms_value)         (* info "Current RMS level: ..." *)
| LogThresholdLevel (thr : Q)           (* info "Audio threshold: ..." *)
| LogVeryLow                            (* warning "Very low audio levels detected" *)
| LogTestPassed                         (* info "Audio input test passed" *)
| LogStreamStarted                      (* info "Audio stream started" *)
| LogStartError (e : Exception).        (* error "Error starting audio receiver: ..." *)

(** The receiver with its service and what [start] adds to it: the
    attribute [stream], absent before the stream is created, and the
    drain tasks created, each where it stands. *)
Record Receiver := mkRunning {
  core : AudioReceiver;
  service : AnyService;
  stream : option StreamState;
  drain_tasks : list DrainPc;
  start_log : list StartRecord
}.

(** [AudioReceiver.__init__] *)
Definition new_receiver (sf_write : ndarray -> Z -> result string)
    (config : AudioConfig) (debug : bool) : result Receiver :=
  svc <- create_transcription_service sf_write
           (transcription_service_type config)
           (transcription_config_of config debug) ;;
  Ok {| core := init config debug; service := svc; stream := None;
        drain_tasks := []; start_log := [] |}.

Definition start_logger (r : Receiver) (x : StartRecord) : Receiver :=
  {| core := core r; service := service r; stream := stream r;
     drain_tasks := drain_tasks r; start_log := start_log r ++ [x] |}.

Definition set_core (r : Receiver) (c : AudioReceiver) : Receiver :=
  {| core := c; service := service r; stream := stream r;
     drain_tasks := drain_tasks r; start_log := start_log r |}.

Definition set_service (r : Receiver) (svc : AnyService) : Receiver :=
  {| core := core r; service := svc; stream := stream r;
     drain_tasks := drain_tasks r; start_log := start_log r |}.

Definition set_stream (r : Receiver) (st : option StreamState) : Receiver :=
  {| core := core r; service := service r; stream := st;
     drain_tasks := drain_tasks r; start_log := start_log r |}.

Definition create_drain_task (r : Receiver) : Receiver :=
  {| core := core r; service := service r; stream := stream r;
     drain_tasks := drain_tasks r ++ [AtWhile]; start_log := start_log r |}.

(** [rms < t]: false on [nan]. *)
Definition rms_lt (r : rms_value) (t : Q) : bool :=
  match r with
  | NaN => false
  | Sqrt m => negb (Qle_bool t 0) && negb (Qle_bool (t * t) m)
  end.

(** [AudioReceiver._test_audio_input] *)
Definition _test_audio_input (d : Driver) (r : Receiver)
    : Receiver * result unit :=
  let duration := 2%Z in
  let r := start_logger r (LogTesting duration) in
  match sd_rec d (int_of_float (inject_Z (duration * sample_rate (config (core r))))) with
  | Raised e => (r, Raised e)
  | Ok recording =>
      let rms := rms_of recording in
      let r := start_logger r (LogRmsLevel rms) in
      let r := start_logger r (LogThresholdLevel (audio_threshold (config (core r)))) in
      if rms_lt rms (1 # 1000)
      then (start_logger r LogVeryLow, Ok tt)
      else (start_logger r LogTestPassed, Ok tt)
  end.

(** The body of the [try] of [AudioReceiver.start]. *)
Definition start_try (v : Vendors) (d : Driver) (r : Receiver)
    : Receiver * result unit :=
  let r := set_core r (set_loop (core r) LoopRunning) in
  match initialize v (service r) with
  | Raised e => (r, Raised e)
  | Ok svc =>
      let r := set_service r svc in
      match _test_audio_input d r with
      | (r, Raised e) => (r, Raised e)
      | (r, Ok _) =>
          let r := create_drain_task r in
          match open_stream d with
          | Raised e => (r, Raised e)
          | Ok _ =>
              let r := set_stream r (Some StreamOpened) in
              match start_stream d with
              | Raised e => (r, Raised e)
              | Ok _ =>
                  (start_logger (set_stream r (Some StreamActive))
                     LogStreamStarted, Ok tt)
              end
          end
      end
  end.

(** [AudioReceiver.start]: an exception is logged and raised again. *)
Definition start (v : Vendors) (d : Driver) (r : Receiver)
    : Receiver * result unit :=
  match start_try v d r with
  | (r', Raised e) => (start_logger r' (LogStartError e), Raised e)
  | (r', Ok _) => (r', Ok tt)
  end.

(** [AudioReceiver.stop] with the stream: [cleanup] does nothing in both
    services. *)
Definition stop_receiver (d : Driver) (r : Receiver) : Receiver * result unit :=
  let r := set_core r (set_terminate_flag (core r) true) in
  match stream r with
  | None => (set_core r (logger (core r) LogStopped), Ok tt)
  | Some _ =>
      match stop_stream d with
      | Raised e => (r, Raised e)
      | Ok _ =>
          match close_stream d with
          | Raised e => (r, Raised e)
          | Ok _ =>
              let r := set_stream r (Some StreamClosed) in
              (set_core r (logger (core r) LogStopped), Ok tt)
          end
      end
  end.

(** ** The command line

    [launch_control/cli.py], [launch_control/config/settings.py] and
    [DeploymentAgent._setup_audio_components]. The environment is a
    function from names to values; the numeric settings, which
    [settings.py] parses with [int] and [float], are given as parsed. *)

Definition Env := string -> option string.

Record NumericSettings := mkNumericSettings {
  SAMPLE_RATE : Z;
  CHANNELS : Z;
  AUDIO_DEVICE_INDEX : Z;
  AUDIO_THRESHOLD : Q;
  SILENCE_THRESHOLD : Q;
  MIN_RECORDING_DURATION : Q;
  MAX_RECORDING_DURATION : Q;
  PRE_ROLL_DURATION : Q;
  POST_ROLL_DURATION : Q
}.

(** [os.getenv(name, default)] *)
Definition getenv_default (env : Env) (name default : string) : string :=
  match env name with
  | Some v => v
  | None => default
  end.

(** The configuration dictionary of the agent, by key: [None] when the
    key is absent (or, for the keys read without a default, holds
    [None]). *)
Record ConfigDict := mkConfigDict {
  d_sample_rate : option Z;
  d_channels : option Z;
  d_audio_device_index : option Z;
  d_audio_threshold : option Q;
  d_silence_threshold : option Q;
  d_min_duration : option Q;
  d_max_duration : option Q;
  d_pre_roll : option Q;
  d_post_roll : option Q;
  d_debug : option bool;
  d_project_id : option string;
  d_gemini_api_key : option string;
  d_transcription_service_type : option string;
  d_openai_api_key : option string
}.

(** [dict.get(key, default)] *)
Definition get {A : Type} (entry : option A) (default : A) : A :=
  match entry with
  | Some v => v
  | None => default
  end.

(** The dictionary [listen] builds. *)
Definition cli_config (env : Env) (n : NumericSettings) (debug : bool)
    : ConfigDict :=
  {| d_sample_rate := Some (SAMPLE_RATE n);
     d_channels := Some (CHANNELS n);
     d_audio_device_index := Some (AUDIO_DEVICE_INDEX n);
     d_audio_threshold := Some (AUDIO_THRESHOLD n);
     d_silence_threshold := Some (SILENCE_THRESHOLD n);
     d_min_duration := Some (MIN_RECORDING_DURATION n);
     d_max_duration := Some (MAX_RECORDING_DURATION n);
     d_pre_roll := Some (PRE_ROLL_DURATION n);
     d_post_roll := Some (POST_ROLL_DURATION n);
     d_debug := Some debug;
     d_project_id := env "GOOGLE_CLOUD_PROJECT"%string;
     d_gemini_api_key := env "GEMINI_API_KEY"%string;
     d_transcription_service_type :=
       Some (getenv_default env "TRANSCRIPTION_SERVICE_TYPE" "google-chirp");
     d_openai_api_key := env "OPENAI_API_KEY"%string |}.

(** The [AudioConfig] of [DeploymentAgent._setup_audio_components];
    [queue_size] keeps the default of the dataclass. *)
Definition audio_config_of (c : ConfigDict) : AudioConfig :=
  {| sample_rate := get (d_sample_rate c) 44100%Z;
     channels := get (d_channels c) 1%Z;
     device_index := get (d_audio_device_index c) 1%Z;
     audio_threshold := get (d_audio_threshold c) (5 # 1000);
     silence_threshold := get (d_silence_threshold c) 1;
     min_duration := get (d_min_duration c) (1 # 2);
     max_duration := get (d_max_duration c) 30;
     pre_roll := get (d_pre_roll c) (1 # 2);
     post_roll := get (d_post_roll c) (1 # 2);
     queue_size := 100%Z;
     project_id := d_project_id c;
     transcription_service_type :=
       get (d_transcription_service_type c) "google-chirp"%string;
     api_key := d_openai_api_key c |}.

(** [DeploymentAgent._setup_audio_components]: the receiver it builds. *)
Definition _setup_audio_components (sf_write : ndarray -> Z -> result string)
    (c : ConfigDict) : result Receiver :=
  new_receiver sf_write (audio_config_of c) (get (d_debug c) false).

(** [listen] up to [agent.start()]: it exits with a message, or
    [agent.initialize()] raises out of [main], or the receiver is ready
    to be started. *)
Inductive ListenResult :=
| Exited (code : Z) (message : string)
| InitializeRaised (e : Exception)
| Ready (r : Receiver).

Definition listen_setup (sf_write : ndarray -> Z -> result string)
    (env : Env) (n : NumericSettings) (debug : bool) : ListenResult :=
  if falsy (env "GOOGLE_CLOUD_PROJECT"%string) then
    Exited 1 "Error: GOOGLE_CLOUD_PROJECT environment variable not set"%string
  else if falsy (env "GEMINI_API_KEY"%string) then
    Exited 1 "Error: GEMINI_API_KEY environment variable not set"%string
  else
    match _setup_audio_components sf_write (cli_config env n debug) with
    | Raised e => InitializeRaised e
    | Ok r => Ready r
    end.

(** The records of [main] on the root logger. *)
Inductive MainRecord :=
| LogUnexpectedError (e : Exception)    (* error "Unexpected error: ..." *)
| LogStoppedGracefully.                 (* info "Listener stopped gracefully." *)

(** Where [main] stands once [agent.start()] has been awaited: started,
    it goes on to register the signal handlers and to wait for
    [stop_event]; or, [start] having raised, it is past its [except] and
    [finally] clauses and has returned, or raised what [agent.stop()]
    raised. *)
Inductive MainOutcome :=
| Started (r : Receiver)
| MainReturned (r : Receiver) (records : list MainRecord)
| MainRaised (r : Receiver) (records : list MainRecord) (e : Exception).

(** The [finally] clause of [main]: [agent.stop()], which stops the
    receiver the agent holds, then the record. *)
Definition main_finally (d : Driver) (r : Receiver)
    (records : list MainRecord) : MainOutcome :=
  match stop_receiver d r with
  | (r', Ok _) => MainReturned r' (records ++ [LogStoppedGracefully])
  | (r', Raised e) => MainRaised r' records e
  end.

(** [main] from [agent.start()], which starts the receiver the agent
    holds, to the wait for a signal. *)
Definition main_start (v : Vendors) (d : Driver) (r : Receiver)
    : MainOutcome :=
  match start v d r with
  | (r', Ok _) => Started r'
  | (r', Raised e) => main_finally d r' [LogUnexpectedError e]
  end.

(** ** Blank and trimmed text *)

Fixpoint all_space (s : string) : bool :=
  match s with
  | EmptyString => true
  | String c s' => is_space c && all_space s'
  end.

Definition first_char (s : string) : option ascii :=
  match s with
  | EmptyString => None
  | String c _ => Some c
  end.

Fixpoint last_char (s : string) : option ascii :=
  match s with
  | EmptyString => None
  | String c EmptyString => Some c
  | String _ s' => last_char s'
  end.

(** Not empty, and no white space at either end. *)
Definition trimmed (s : string) : Prop :=
  (exists c, first_char s = Some c /\ is_space c = false) /\
  (exists c, last_char s = Some c /\ is_space c = false).

(** ** The drain loop on its own *)

Section Draining.

Context {B : Type} `{TranscriptionService B}.

Variable transcription_service : B.
Variable on_transcription : string -> result unit.
Variable _save_debug_data : ndarray -> string -> result unit.

(** [_process_audio_queue] for at most [fuel] moves, no frame arriving and
    no put completing in between; it stops early when the coroutine has
    returned or is suspended. *)
Fixpoint drain_run (fuel : nat) (pc : DrainPc) (s : AudioReceiver)
    : DrainPc * AudioReceiver :=
  match fuel with
  | O => (pc, s)
  | S fuel' =>
      match drain_step transcription_service on_transcription
              _save_debug_data pc s with
      | None => (pc, s)
      | Some (pc', s') => drain_run fuel' pc' s'
      end
  end.

(** What the sink is given for an utterance: the text of the result, when
    there is a result and its text is not empty. *)
Definition forwarded (audio_data : ndarray) : list string :=
  match fst (transcribe transcription_service audio_data) with
  | Ok (Some res) => if truthy (text res) then [text res] else []
  | _ => []
  end.

End Draining.

(** ** Further notions of the frame-delivery side *)

(** The silence run is part of the recording: it is not negative and not
    longer than the accumulated duration. *)
Definition counters_ok (s : AudioReceiver) : Prop :=
  (0 <= silence_counter s /\ silence_counter s <= recording_duration s)%Q.

(** Every recording that the log shows as started is completed or in
    progress, and an idle receiver holds no utterance buffer. *)
Definition consistent (s : AudioReceiver) : Prop :=
  starts (log s) = (handoffs (log s) + if recording s then 1 else 0)%nat /\
  (recording s = false -> audio_frames s = []).

Definition set_post_roll (cfg : AudioConfig) (p : Q) : AudioConfig :=
  {| sample_rate := sample_rate cfg; channels := channels cfg;
     device_index := device_index cfg;
     audio_threshold := audio_threshold cfg;
     silence_threshold := silence_threshold cfg;
     min_duration := min_duration cfg; max_duration := max_duration cfg;
     pre_roll := pre_roll cfg; post_roll := p;
     queue_size := queue_size cfg; project_id := project_id cfg;
     transcription_service_type := transcription_service_type cfg;
     api_key := api_key cfg |}.

Definition set_config (s : AudioReceiver) (cfg : AudioConfig) :=
  {| config := cfg; debug_mode := debug_mode s;
     audio_queue := audio_queue s; scheduled := scheduled s;
     terminate_flag := terminate_flag s;
     pre_roll_buffer := pre_roll_buffer s; recording := recording s;
     audio_frames := audio_frames s; silence_counter := silence_counter s;
     recording_duration := recording_duration s;
     loop := loop s; log := log s; sink_calls := sink_calls s |}.

(** The same receiver built with another [post_roll]. *)
Definition with_post_roll (s : AudioReceiver) (p : Q) : AudioReceiver :=
  set_config s (set_post_roll (config s) p).

(** At most 0.5 s per segment, a queue of one. *)
Definition cfg_tiny_queue : AudioConfig :=
  cfg_example (1 # 2) (1 # 2) (1 # 4) (1 # 2) (1 # 4) 1.

(** Silence 0.5 s, at least 0.5 s, at most 2 s. *)
Definition cfg_pause : AudioConfig :=
  cfg_example (1 # 2) (1 # 2) (1 # 2) 2 (1 # 4) 10.

(** A stub backend: it answers from a table and logs nothing. *)
Record StubService := mkStubService {
  stub_answer : ndarray -> result (option TranscriptionResult)
}.

#[export] Instance Stub : TranscriptionService StubService :=
  {| transcribe := fun svc audio_data => (stub_answer svc audio_data, []) |}.

(** A stub that hears the number of samples: "one", nothing it can put in
    words for two, no speech for three, "many" beyond. *)
Definition stub_counting : StubService :=
  {| stub_answer := fun audio_data =>
       match length audio_data with
       | 1%nat => Ok (Some (mkTranscriptionResult "one" 1 "en-US" None))
       | 2%nat => Ok (Some (mkTranscriptionResult "" 1 "en-US" None))
       | 3%nat => Ok None
       | _ => Ok (Some (mkTranscriptionResult "many" 1 "en-US" None))
       end%string |}.

(** A started receiver with four utterances in its queue. *)
Definition queued_example : AudioReceiver :=
  set_audio_queue (started cfg_short)
    [[1]; [1; 1]; [1; 1; 1]; [1; 1; 1; 1]]%Q.

(** A driver and client libraries that work, and a driver without a
    device. *)
Definition driver_ok : Driver :=
  {| sd_rec := fun n => Ok (repeat 0%Q (Z.to_nat n));
     open_stream := Ok tt; start_stream := Ok tt;
     stop_stream := Ok tt; close_stream := Ok tt |}.

Definition driver_no_device : Driver :=
  {| sd_rec := fun n => Ok (repeat (1 # 10)%Q (Z.to_nat n));
     open_stream := Raised (Exc OtherException "Error querying device"%string);
     start_stream := Ok tt; stop_stream := Ok tt; close_stream := Ok tt |}.

Definition vendors_ok : Vendors :=
  {| speech_client := Ok (fun _ => Ok {| results := [] |});
     openai_module := fun _ => Ok [("text", "hello")]%string |}.

Definition sf_ok : ndarray -> Z -> result string := fun _ _ => Ok "RIFF"%string.

Definition numbers_example : NumericSettings :=
  {| SAMPLE_RATE := 4%Z; CHANNELS := 1%Z; AUDIO_DEVICE_INDEX := 1%Z;
     AUDIO_THRESHOLD := 1 # 2; SILENCE_THRESHOLD := 1 # 2;
     MIN_RECORDING_DURATION := 1 # 2; MAX_RECORDING_DURATION := 30;
     PRE_ROLL_DURATION := 1 # 4; POST_ROLL_DURATION := 1 # 2 |}.

(** An environment with the two required variables, Whisper selected and
    no key for it. *)
Definition env_whisper_no_key : Env :=
  fun name =>
    (if String.eqb name "GOOGLE_CLOUD_PROJECT" then Some "demo"
     else if String.eqb name "GEMINI_API_KEY" then Some "g-key"
     else if String.eqb name "TRANSCRIPTION_SERVICE_TYPE"
          then Some "openai-whisper"
     else None)%string.

(** Threshold 0.5 and the rest as in [cfg_short], for Chirp with a
    project. *)
Definition cfg_with_project : AudioConfig :=
  {| sample_rate := 4%Z; channels := 1%Z; device_index := 1%Z;
     audio_threshold := 1 # 2; silence_threshold := 1 # 2;
     min_duration := 1 # 2; max_duration := 30;
     pre_roll := 1 # 4; post_roll := 1 # 2; queue_size := 10%Z;
     project_id := Some "demo"%string;
     transcription_service_type := "google-chirp"%string;
     api_key := None |}.

(** The receiver built for [cfg_with_project]. *)
Definition receiver_with_project : Receiver :=
  {| core := init cfg_with_project false;
     service := ChirpService
                  {| chirp_config := transcription_config_of cfg_with_project false;
                     chirp_sf_write := sf_ok;
                     chirp_client := None |};
     stream := None; drain_tasks := []; start_log := [] |}.

(** Services whose answers are malformed: a result without alternatives,
    a dictionary without text. *)
Definition chirp_no_alternative : GoogleChirpService :=
  {| chirp_config := tc_example;
     chirp_sf_write := sf_ok;
     chirp_client :=
       Some (fun _ => Ok {| results := [{| alternatives := [] |}] |}) |}.

Definition whisper_no_text : OpenAIWhisperService :=
  {| whisper_config := tc_example;
     whisper_sf_write := sf_ok;
     whisper_client := Some (fun _ => Ok [("language", "en")]%string) |}.

(** * Properties *)

(** ** The embedding at work *)

Example int_of_float_truncates :
  int_of_float (7 # 2) = 3%Z /\ int_of_float (- (7 # 2)) = (-3)%Z.
Proof. split; reflexivity. Qed.

Example rms_against_threshold :
  rms_gt (rms_of [3 # 5; - (4 # 5)]%Q) (1 # 2) = true /\
  rms_le (rms_of [3 # 5; - (4 # 5)]%Q) (3 # 4) = true /\
  rms_gt (rms_of []) 0 = false /\ rms_le (rms_of []) 0 = false.
Proof. repeat split; reflexivity. Qed.

Example strip_blanks : strip "  good morning "%string = "good morning"%string.
Proof. reflexivity. Qed.

Example language_prefix : before_dash "en-US"%string = "en"%string.
Proof. reflexivity. Qed.

(** Two quiet frames, five loud ones, four quiet ones: one utterance, made
    of the pre-roll (which holds the first loud frame already), the five
    loud frames and the three quiet frames up to the silence threshold. *)
Example one_utterance :
  exists s',
    feed (started cfg_scenario)
      ([quiet_frame; quiet_frame]
       ++ repeat loud_frame 5 ++ repeat quiet_frame 4) = Ok s' /\
    scheduled s' = [[0; 1; 1; 1; 1; 1; 1; 0; 0; 0]]%Q /\
    recording s' = false /\
    starts (log s') = 1%nat /\
    handoffs (log s') = 1%nat.
Proof.
  eexists. split; [vm_compute; reflexivity|]. repeat split; reflexivity.
Qed.

(** The scheduled put reaches the queue, and the drain loop hands the
    utterance to the service; the recognizer hears nothing, so the sink is
    not called. *)
Example drained_in_silence :
  exists s1 s2 s3,
    _stop_recording recording_example = Ok s1 /\
    put_step s1 = Some s2 /\
    drain_step chirp_silent sink_ok save_ok AtGet s2 = Some (AtWhile, s3) /\
    audio_queue s2 = [[1; 1]]%Q /\
    audio_queue s3 = [] /\
    sink_calls s3 = [].
Proof.
  eexists. eexists. eexists.
  split; [vm_compute; reflexivity|].
  split; [vm_compute; reflexivity|].
  split; [vm_compute; reflexivity|].
  repeat split; reflexivity.
Qed.

(** ** Fields through the stages of the callback *)

Lemma handoffs_app (l1 l2 : list LogRecord) :
  handoffs (l1 ++ l2) = (handoffs l1 + handoffs l2)%nat.
Proof.
  unfold handoffs. rewrite filter_app, length_app. reflexivity.
Qed.

Lemma starts_app (l1 l2 : list LogRecord) :
  starts (l1 ++ l2) = (starts l1 + starts l2)%nat.
Proof.
  unfold starts. rewrite filter_app, length_app. reflexivity.
Qed.

Lemma rms_gt_not_le (r : rms_value) (thr : Q) :
  rms_gt r thr = true -> rms_le r thr = false.
Proof.
  destruct r as [|m]; simpl; [discriminate|].
  destruct (Qle_bool 0 thr); [|reflexivity].
  destruct (Qle_bool m (thr * thr)); simpl; congruence.
Qed.

Lemma stop_recording_ok (s : AudioReceiver) :
  audio_frames s <> [] -> _stop_recording s = Ok (after_stop s).
Proof.
  intros Hne. unfold _stop_recording, after_stop.
  destruct (audio_frames s) as [|a l] eqn:E; [congruence|].
  simpl. rewrite E. reflexivity.
Qed.

Lemma record_frame_frames (s : AudioReceiver) i r d :
  audio_frames (record_frame s i r d) = audio_frames s ++ [i].
Proof.
  unfold record_frame. simpl.
  destruct (rms_le r (audio_threshold (config s))); reflexivity.
Qed.

Lemma record_frame_config (s : AudioReceiver) i r d :
  config (record_frame s i r d) = config s.
Proof.
  unfold record_frame. simpl.
  destruct (rms_le r (audio_threshold (config s))); reflexivity.
Qed.

Lemma detect_config (s : AudioReceiver) i r n :
  config (detect s i r n) = config s.
Proof.
  unfold detect, update_pre_roll. simpl.
  repeat match goal with |- context [if ?b then _ else _] => destruct b end;
    reflexivity.
Qed.

Lemma warn_status_config (s : AudioReceiver) st :
  config (warn_status s st) = config s.
Proof. destruct st; reflexivity. Qed.

(** The callback raises nothing on a non-empty frame when the sample rate
    is not zero. *)
Lemma audio_callback_ok (s : AudioReceiver) (f : Frame) :
  frames f <> 0%Z -> sample_rate (config s) <> 0%Z ->
  _audio_callback s (indata f) (frames f) (status f) = Ok (after_callback s f).
Proof.
  intros Hn Hsr. unfold _audio_callback, after_callback, at_stop_test.
  apply Z.eqb_neq in Hn. rewrite Hn.
  set (s1 := detect _ _ _ _).
  destruct (recording s1) eqn:Hrec; [|reflexivity].
  unfold _handle_recording.
  assert (Hc : config s1 = config s).
  { unfold s1. rewrite detect_config, warn_status_config. reflexivity. }
  rewrite Hc. apply Z.eqb_neq in Hsr. rewrite Hsr.
  destruct (_should_stop_recording _); [|reflexivity].
  apply stop_recording_ok. rewrite record_frame_frames.
  intros H. apply app_eq_nil in H. destruct H; discriminate.
Qed.

Create Rewrite HintDb fields.
#[local] Hint Rewrite record_frame_frames record_frame_config warn_status_config : fields.

Ltac by_cases_on_handoff :=
  intros; unfold after_stop, enqueue_try, accepts, full; simpl;
  match goal with
  | x : AudioReceiver |- _ => destruct (loop x) eqn:?
  end; simpl;
  repeat match goal with
         | |- context [if ?b then _ else _] => destruct b; simpl
         end.

Section Fields.

Variables (s : AudioReceiver) (st : option string) (i : ndarray) (n : Z).
Variables (r : rms_value) (d : Q).

(** [warn_status] writes to the log only. *)

Lemma warn_status_audio_queue : audio_queue (warn_status s st) = audio_queue s.
Proof. destruct st; reflexivity. Qed.

Lemma warn_status_scheduled : scheduled (warn_status s st) = scheduled s.
Proof. destruct st; reflexivity. Qed.

Lemma warn_status_pre_roll_buffer : pre_roll_buffer (warn_status s st) = pre_roll_buffer s.
Proof. destruct st; reflexivity. Qed.

Lemma warn_status_recording : recording (warn_status s st) = recording s.
Proof. destruct st; reflexivity. Qed.

Lemma warn_status_audio_frames : audio_frames (warn_status s st) = audio_frames s.
Proof. destruct st; reflexivity. Qed.

Lemma warn_status_silence_counter : silence_counter (warn_status s st) = silence_counter s.
Proof. destruct st; reflexivity. Qed.

Lemma warn_status_recording_duration : recording_duration (warn_status s st) = recording_duration s.
Proof. destruct st; reflexivity. Qed.

Lemma warn_status_loop : loop (warn_status s st) = loop s.
Proof. destruct st; reflexivity. Qed.

(** [update_pre_roll] changes the pre-roll buffer only. *)

Lemma update_pre_roll_config : config (update_pre_roll s i n) = config s.
Proof. unfold update_pre_roll. destruct (_ <? _)%Z; reflexivity. Qed.

Lemma update_pre_roll_audio_queue : audio_queue (update_pre_roll s i n) = audio_queue s.
Proof. unfold update_pre_roll. destruct (_ <? _)%Z; reflexivity. Qed.

Lemma update_pre_roll_scheduled : scheduled (update_pre_roll s i n) = scheduled s.
Proof. unfold update_pre_roll. destruct (_ <? _)%Z; reflexivity. Qed.

Lemma update_pre_roll_recording : recording (update_pre_roll s i n) = recording s.
Proof. unfold update_pre_roll. destruct (_ <? _)%Z; reflexivity. Qed.

Lemma update_pre_roll_audio_frames : audio_frames (update_pre_roll s i n) = audio_frames s.
Proof. unfold update_pre_roll. destruct (_ <? _)%Z; reflexivity. Qed.

Lemma update_pre_roll_silence_counter : silence_counter (update_pre_roll s i n) = silence_counter s.
Proof. unfold update_pre_roll. destruct (_ <? _)%Z; reflexivity. Qed.

Lemma update_pre_roll_recording_duration : recording_duration (update_pre_roll s i n) = recording_duration s.
Proof. unfold update_pre_roll. destruct (_ <? _)%Z; reflexivity. Qed.

Lemma update_pre_roll_loop : loop (update_pre_roll s i n) = loop s.
Proof. unfold update_pre_roll. destruct (_ <? _)%Z; reflexivity. Qed.

Lemma update_pre_roll_log : log (update_pre_roll s i n) = log s.
Proof. unfold update_pre_roll. destruct (_ <? _)%Z; reflexivity. Qed.

(** [record_frame] changes the utterance buffer and the two counters. *)

Lemma record_frame_audio_queue : audio_queue (record_frame s i r d) = audio_queue s.
Proof. unfold record_frame. destruct (rms_le _ _); reflexivity. Qed.

Lemma record_frame_scheduled : scheduled (record_frame s i r d) = scheduled s.
Proof. unfold record_frame. destruct (rms_le _ _); reflexivity. Qed.

Lemma record_frame_pre_roll_buffer : pre_roll_buffer (record_frame s i r d) = pre_roll_buffer s.
Proof. unfold record_frame. destruct (rms_le _ _); reflexivity. Qed.

Lemma record_frame_recording : recording (record_frame s i r d) = recording s.
Proof. unfold record_frame. destruct (rms_le _ _); reflexivity. Qed.

Lemma record_frame_loop : loop (record_frame s i r d) = loop s.
Proof. unfold record_frame. destruct (rms_le _ _); reflexivity. Qed.

Lemma record_frame_log : log (record_frame s i r d) = log s.
Proof. unfold record_frame. destruct (rms_le _ _); reflexivity. Qed.

Lemma record_frame_recording_duration : 
  recording_duration (record_frame s i r d) = (recording_duration s + d)%Q.
Proof. unfold record_frame. destruct (rms_le _ _); reflexivity. Qed.

Lemma record_frame_silence_counter : 
  silence_counter (record_frame s i r d)
  = if rms_le r (audio_threshold (config s)) then (silence_counter s + d)%Q
    else 0%Q.
Proof. unfold record_frame. simpl. destruct (rms_le _ _); reflexivity. Qed.

(** [_start_recording] seeds the utterance buffer and resets the counters. *)

Lemma start_recording_config : config (_start_recording s) = config s.
Proof. reflexivity. Qed.

Lemma start_recording_audio_queue : audio_queue (_start_recording s) = audio_queue s.
Proof. reflexivity. Qed.

Lemma start_recording_scheduled : scheduled (_start_recording s) = scheduled s.
Proof. reflexivity. Qed.

Lemma start_recording_pre_roll_buffer : pre_roll_buffer (_start_recording s) = pre_roll_buffer s.
Proof. reflexivity. Qed.

Lemma start_recording_loop : loop (_start_recording s) = loop s.
Proof. reflexivity. Qed.

Lemma start_recording_recording : recording (_start_recording s) = true.
Proof. reflexivity. Qed.

Lemma start_recording_audio_frames : 
  audio_frames (_start_recording s) = pre_roll_buffer s.
Proof. reflexivity. Qed.

Lemma start_recording_silence_counter : silence_counter (_start_recording s) = 0%Q.
Proof. reflexivity. Qed.

Lemma start_recording_recording_duration : 
  recording_duration (_start_recording s) = 0%Q.
Proof. reflexivity. Qed.

Lemma start_recording_log : 
  log (_start_recording s) = log s ++ [LogStartedRecording].
Proof. reflexivity. Qed.

(** [_stop_recording] leaves the pre-roll buffer, the counters and the queue. *)

Lemma after_stop_config : config (after_stop s) = config s.
Proof. by_cases_on_handoff; congruence. Qed.

Lemma after_stop_audio_queue : audio_queue (after_stop s) = audio_queue s.
Proof. by_cases_on_handoff; congruence. Qed.

Lemma after_stop_pre_roll_buffer : pre_roll_buffer (after_stop s) = pre_roll_buffer s.
Proof. by_cases_on_handoff; congruence. Qed.

Lemma after_stop_silence_counter : silence_counter (after_stop s) = silence_counter s.
Proof. by_cases_on_handoff; congruence. Qed.

Lemma after_stop_recording_duration : recording_duration (after_stop s) = recording_duration s.
Proof. by_cases_on_handoff; congruence. Qed.

Lemma after_stop_loop : loop (after_stop s) = loop s.
Proof. by_cases_on_handoff; congruence. Qed.

Lemma after_stop_recording : recording (after_stop s) = false.
Proof. by_cases_on_handoff; congruence. Qed.

Lemma after_stop_audio_frames : audio_frames (after_stop s) = [].
Proof. by_cases_on_handoff; congruence. Qed.

End Fields.

#[local] Hint Rewrite warn_status_audio_queue warn_status_scheduled
  warn_status_pre_roll_buffer warn_status_recording warn_status_audio_frames
  warn_status_silence_counter warn_status_recording_duration
  warn_status_loop update_pre_roll_config update_pre_roll_audio_queue
  update_pre_roll_scheduled update_pre_roll_recording
  update_pre_roll_audio_frames update_pre_roll_silence_counter
  update_pre_roll_recording_duration update_pre_roll_loop
  update_pre_roll_log record_frame_audio_queue record_frame_scheduled
  record_frame_pre_roll_buffer record_frame_recording record_frame_loop
  record_frame_log record_frame_recording_duration
  record_frame_silence_counter start_recording_config
  start_recording_audio_queue start_recording_scheduled
  start_recording_pre_roll_buffer start_recording_loop
  start_recording_recording start_recording_audio_frames
  start_recording_silence_counter start_recording_recording_duration
  start_recording_log after_stop_config after_stop_audio_queue
  after_stop_pre_roll_buffer after_stop_silence_counter
  after_stop_recording_duration after_stop_loop after_stop_recording
  after_stop_audio_frames : fields.

Lemma after_stop_scheduled :
  forall s, scheduled (after_stop s) =
            if accepts s then scheduled s ++ [concat (audio_frames s)]
            else scheduled s.
Proof. by_cases_on_handoff; reflexivity. Qed.

Lemma after_stop_handoffs :
  forall s, handoffs (log (after_stop s)) = S (handoffs (log s)).
Proof.
  by_cases_on_handoff; unfold handoffs; simpl;
    rewrite filter_app, length_app; simpl; lia.
Qed.

Lemma after_stop_starts :
  forall s, starts (log (after_stop s)) = starts (log s).
Proof.
  by_cases_on_handoff; unfold starts; simpl;
    rewrite filter_app, length_app; simpl; lia.
Qed.

Lemma warn_status_handoffs :
  forall s st, handoffs (log (warn_status s st)) = handoffs (log s).
Proof.
  intros s [flags|]; unfold handoffs; simpl; [|reflexivity].
  rewrite filter_app, length_app; simpl; lia.
Qed.

Lemma warn_status_starts :
  forall s st, starts (log (warn_status s st)) = starts (log s).
Proof.
  intros s [flags|]; unfold starts; simpl; [|reflexivity].
  rewrite filter_app, length_app; simpl; lia.
Qed.
#[local] Hint Rewrite after_stop_scheduled after_stop_handoffs after_stop_starts
  warn_status_handoffs warn_status_starts : fields.

Lemma detect_recording (s : AudioReceiver) i r n :
  recording s = true -> detect s i r n = update_pre_roll s i n.
Proof.
  intros H. unfold detect. rewrite update_pre_roll_recording, H. reflexivity.
Qed.

Lemma detect_quiet (s : AudioReceiver) i r n :
  rms_gt r (audio_threshold (config s)) = false ->
  detect s i r n = update_pre_roll s i n.
Proof.
  intros H. unfold detect. rewrite update_pre_roll_config, H.
  rewrite andb_false_r. reflexivity.
Qed.

Lemma detect_start (s : AudioReceiver) i r n :
  recording s = false ->
  rms_gt r (audio_threshold (config s)) = true ->
  detect s i r n = _start_recording (update_pre_roll s i n).
Proof.
  intros H1 H2. unfold detect.
  rewrite update_pre_roll_recording, update_pre_roll_config, H1, H2.
  reflexivity.
Qed.

Lemma accepts_same (a b : AudioReceiver) :
  loop a = loop b -> config a = config b -> audio_queue a = audio_queue b ->
  accepts a = accepts b.
Proof.
  intros Hl Hc Hq. unfold accepts, full. rewrite Hl, Hc, Hq. reflexivity.
Qed.

Lemma should_stop_iff (s : AudioReceiver) :
  _should_stop_recording s = true <->
  (min_duration (config s) <= recording_duration s /\
   (silence_threshold (config s) <= silence_counter s \/
    max_duration (config s) <= recording_duration s))%Q.
Proof.
  unfold _should_stop_recording.
  rewrite andb_true_iff, orb_true_iff, !Qle_bool_iff. tauto.
Qed.

(** ** The pre-roll buffer *)

Lemma most_recent_length {A : Type} (n : nat) (l : list A) :
  (length (most_recent n l) <= n)%nat.
Proof. unfold most_recent. rewrite length_skipn. lia. Qed.

Lemma most_recent_short {A : Type} (n : nat) (l : list A) :
  (length l <= n)%nat -> most_recent n l = l.
Proof.
  intros H. unfold most_recent.
  replace (length l - n)%nat with 0%nat by lia. reflexivity.
Qed.

Lemma tl_skipn {A : Type} (k : nat) (l : list A) :
  tl (skipn k l) = skipn (S k) l.
Proof.
  revert l. induction k as [|k IH]; intros l.
  - destruct l; reflexivity.
  - destruct l as [|a l]; [reflexivity | exact (IH l)].
Qed.

(** Appending and dropping the oldest block beyond the capacity keeps the
    most recent blocks. *)
Lemma most_recent_snoc {A : Type} (capz : Z) (hist : list A) (x : A) :
  let cap := Z.to_nat capz in
  let b := most_recent cap hist ++ [x] in
  (if (capz <? Z.of_nat (length b))%Z then tl b else b)
  = most_recent cap (hist ++ [x]).
Proof.
  intros cap b. unfold b, most_recent.
  rewrite !length_app, length_skipn. simpl.
  destruct (Z.ltb_spec capz (Z.of_nat (length hist - (length hist - cap) + 1))).
  - assert (Hle : (cap <= length hist)%nat) by lia.
    replace (length hist + 1 - cap)%nat with (S (length hist - cap)) by lia.
    rewrite <- tl_skipn, skipn_app.
    replace (length hist - cap - length hist)%nat with 0%nat by lia.
    reflexivity.
  - assert (Hlt : (length hist < cap)%nat) by lia.
    replace (length hist - cap)%nat with 0%nat by lia.
    replace (length hist + 1 - cap)%nat with 0%nat by lia.
    reflexivity.
Qed.

Lemma update_pre_roll_most_recent (s : AudioReceiver) i n hist :
  pre_roll_buffer s
  = most_recent (Z.to_nat (pre_roll_frames (config s) n)) hist ->
  pre_roll_buffer (update_pre_roll s i n)
  = most_recent (Z.to_nat (pre_roll_frames (config s) n)) (hist ++ [i]).
Proof.
  intros H. rewrite <- most_recent_snoc. rewrite <- H.
  unfold update_pre_roll. simpl.
  destruct (_ <? _)%Z; reflexivity.
Qed.

Lemma detect_pre_roll_buffer (s : AudioReceiver) i r n :
  pre_roll_buffer (detect s i r n) = pre_roll_buffer (update_pre_roll s i n).
Proof.
  unfold detect. destruct (_ && _); autorewrite with fields; reflexivity.
Qed.

Lemma after_callback_config (s : AudioReceiver) (f : Frame) :
  config (after_callback s f) = config s.
Proof.
  unfold after_callback, at_stop_test.
  repeat match goal with
         | |- context [if ?b then _ else _] => destruct b
         end;
    autorewrite with fields; rewrite ?detect_config, ?warn_status_config;
    reflexivity.
Qed.

Lemma after_callback_pre_roll_buffer (s : AudioReceiver) (f : Frame) :
  pre_roll_buffer (after_callback s f)
  = pre_roll_buffer (update_pre_roll (warn_status s (status f)) (indata f)
                       (frames f)).
Proof.
  unfold after_callback, at_stop_test.
  repeat match goal with
         | |- context [if ?b then _ else _] => destruct b
         end;
    autorewrite with fields; rewrite ?detect_pre_roll_buffer; reflexivity.
Qed.

Lemma feed_pre_roll (fs : list Frame) :
  forall (s : AudioReceiver) (n : Z) (hist : list ndarray),
    n <> 0%Z ->
    sample_rate (config s) <> 0%Z ->
    Forall (fun f => frames f = n) fs ->
    pre_roll_buffer s
    = most_recent (Z.to_nat (pre_roll_frames (config s) n)) hist ->
    exists s',
      feed s fs = Ok s' /\
      config s' = config s /\
      pre_roll_buffer s'
      = most_recent (Z.to_nat (pre_roll_frames (config s) n))
          (hist ++ map indata fs).
Proof.
  induction fs as [|f fs IH]; intros s n hist Hn Hsr Hall Hbuf.
  - exists s. simpl. rewrite app_nil_r. auto.
  - inversion Hall as [|? ? Hf Hall']; subst. simpl.
    rewrite audio_callback_ok by assumption. simpl.
    destruct (IH (after_callback s f) (frames f) (hist ++ [indata f]))
      as (s' & Hfeed & Hcfg & Hres); try assumption.
    + rewrite after_callback_config. assumption.
    + rewrite after_callback_pre_roll_buffer, after_callback_config.
      rewrite <- (warn_status_config s (status f)).
      apply update_pre_roll_most_recent.
      rewrite warn_status_pre_roll_buffer, warn_status_config. exact Hbuf.
    + exists s'. rewrite after_callback_config in *.
      rewrite <- app_assoc in Hres. auto.
Qed.

(** ** One frame, by cases *)

Lemma detect_cases (s : AudioReceiver) i r n :
  detect s i r n = update_pre_roll s i n \/
  (recording s = false /\
   rms_gt r (audio_threshold (config s)) = true /\
   detect s i r n = _start_recording (update_pre_roll s i n)).
Proof.
  unfold detect. autorewrite with fields.
  destruct (recording s); simpl; [left; reflexivity|].
  destruct (rms_gt r (audio_threshold (config s))); auto.
Qed.

Lemma detect_handoffs (s : AudioReceiver) i r n :
  handoffs (log (detect s i r n)) = handoffs (log s).
Proof.
  destruct (detect_cases s i r n) as [-> | (_ & _ & ->)];
    autorewrite with fields; [reflexivity|].
  rewrite handoffs_app. change (handoffs [LogStartedRecording]) with 0%nat. lia.
Qed.

Lemma detect_scheduled (s : AudioReceiver) i r n :
  scheduled (detect s i r n) = scheduled s.
Proof.
  destruct (detect_cases s i r n) as [-> | (_ & _ & ->)];
    autorewrite with fields; reflexivity.
Qed.

Lemma detect_audio_queue (s : AudioReceiver) i r n :
  audio_queue (detect s i r n) = audio_queue s.
Proof.
  destruct (detect_cases s i r n) as [-> | (_ & _ & ->)];
    autorewrite with fields; reflexivity.
Qed.

Lemma detect_loop (s : AudioReceiver) i r n :
  loop (detect s i r n) = loop s.
Proof.
  destruct (detect_cases s i r n) as [-> | (_ & _ & ->)];
    autorewrite with fields; reflexivity.
Qed.
#[local] Hint Rewrite detect_config detect_handoffs detect_scheduled
  detect_audio_queue detect_loop detect_pre_roll_buffer : fields.

Lemma frame_duration_same (a b : AudioReceiver) (n : Z) :
  config a = config b -> frame_duration a n = frame_duration b n.
Proof. intros H. unfold frame_duration. rewrite H. reflexivity. Qed.

(** ** C1 *)



(** ** C5 *)




(** ** C4 *)

Lemma audio_callback_idle_quiet (s : AudioReceiver) (f : Frame) :
  recording s = false ->
  loud (config s) f = false ->
  frames f <> 0%Z ->
  _audio_callback s (indata f) (frames f) (status f)
  = Ok (update_pre_roll (warn_status s (status f)) (indata f) (frames f)).
Proof.
  intros Hrec Hq Hn. unfold _audio_callback.
  apply Z.eqb_neq in Hn. rewrite Hn.
  rewrite detect_quiet by (rewrite warn_status_config; exact Hq).
  autorewrite with fields. rewrite Hrec. reflexivity.
Qed.

Lemma update_pre_roll_length (s : AudioReceiver) i n :
  (length (pre_roll_buffer s) <= Z.to_nat (pre_roll_frames (config s) n))%nat ->
  (length (pre_roll_buffer (update_pre_roll s i n))
   <= Z.to_nat (pre_roll_frames (config s) n))%nat.
Proof.
  intros H.
  rewrite (update_pre_roll_most_recent s i n (pre_roll_buffer s)).
  - apply most_recent_length.
  - symmetry. apply most_recent_short. exact H.
Qed.

Lemma feed_quiet (fs : list Frame) :
  forall (s : AudioReceiver) (n : Z),
    recording s = false ->
    n <> 0%Z ->
    Forall (fun f => frames f = n /\ loud (config s) f = false) fs ->
    (length (pre_roll_buffer s)
     <= Z.to_nat (pre_roll_frames (config s) n))%nat ->
    exists s',
      feed s fs = Ok s' /\
      recording s' = false /\
      starts (log s') = starts (log s) /\
      (length (pre_roll_buffer s')
       <= Z.to_nat (pre_roll_frames (config s) n))%nat.
Proof.
  induction fs as [|f fs IH]; intros s n Hrec Hn Hall Hlen.
  - exists s. simpl. auto.
  - inversion Hall as [|? ? [Hf Hq] Hall']; subst. simpl.
    rewrite audio_callback_idle_quiet by assumption. simpl.
    set (s1 := update_pre_roll _ _ _).
    assert (Hc : config s1 = config s)
      by (unfold s1; autorewrite with fields; reflexivity).
    destruct (IH s1 (frames f)) as (s' & Hfeed & Hr & Hst & Hl).
    + unfold s1. autorewrite with fields. exact Hrec.
    + exact Hn.
    + rewrite Hc. exact Hall'.
    + rewrite Hc. unfold s1.
      rewrite <- (warn_status_config s (status f)).
      apply update_pre_roll_length. autorewrite with fields. exact Hlen.
    + exists s'. rewrite Hc in Hl. repeat split; try assumption.
      rewrite Hst. unfold s1. autorewrite with fields. reflexivity.
Qed.



(** ** Durations *)

Lemma duration_pos (n sr : Z) :
  (0 < n)%Z -> (0 < sr)%Z -> (0 < inject_Z n / inject_Z sr)%Q.
Proof.
  intros Hn Hsr. apply Qlt_shift_div_l.
  - unfold Qlt. simpl. lia.
  - rewrite Qmult_0_l. unfold Qlt. simpl. lia.
Qed.

Lemma accumulate_cons (cfg : AudioConfig) (t : Q) (f : Frame) (fs : list Frame) :
  accumulate cfg t (f :: fs)
  = accumulate cfg (t + inject_Z (frames f) / inject_Z (sample_rate cfg)) fs.
Proof. reflexivity. Qed.

Lemma accumulate_app (cfg : AudioConfig) (t : Q) (fs gs : list Frame) :
  accumulate cfg t (fs ++ gs) = accumulate cfg (accumulate cfg t fs) gs.
Proof. unfold accumulate. apply fold_left_app. Qed.

Lemma accumulate_mono (cfg : AudioConfig) (fs : list Frame) :
  (0 < sample_rate cfg)%Z ->
  Forall (fun f => (0 < frames f)%Z) fs ->
  forall t, (t <= accumulate cfg t fs)%Q.
Proof.
  intros Hsr. induction 1 as [|f fs Hf _ IH]; intros t.
  - simpl. lra.
  - rewrite accumulate_cons.
    pose proof (duration_pos (frames f) (sample_rate cfg) Hf Hsr).
    specialize (IH (t + inject_Z (frames f) / inject_Z (sample_rate cfg))%Q).
    lra.
Qed.

(** ** Runs under the minimum *)

(** A frame that leaves the accumulated duration under [min_duration]
    completes no segment. *)
Lemma callback_below_min (s : AudioReceiver) (f : Frame) (t : Q) :
  (recording s = true -> recording_duration s <= t)%Q ->
  (0 <= t)%Q ->
  (t + frame_duration s (frames f) < min_duration (config s))%Q ->
  handoffs (log (after_callback s f)) = handoffs (log s) /\
  scheduled (after_callback s f) = scheduled s /\
  audio_queue (after_callback s f) = audio_queue s /\
  (recording (after_callback s f) = true ->
   recording_duration (after_callback s f) <= t + frame_duration s (frames f))%Q.
Proof.
  intros Hinv Ht Hmin. unfold after_callback, at_stop_test.
  set (s0 := warn_status s (status f)).
  set (s1 := detect s0 (indata f) (rms_of (indata f)) (frames f)).
  assert (Hc : config s1 = config s)
    by (unfold s1, s0; autorewrite with fields; reflexivity).
  assert (Hd : frame_duration s1 (frames f) = frame_duration s (frames f))
    by (apply frame_duration_same; exact Hc).
  assert (Hbound : recording s1 = true -> (recording_duration s1 <= t)%Q).
  { unfold s1.
    destruct (detect_cases s0 (indata f) (rms_of (indata f)) (frames f))
      as [-> | (_ & _ & ->)]; unfold s0; autorewrite with fields.
    - exact Hinv.
    - intros _. exact Ht. }
  assert (Hh : handoffs (log s1) = handoffs (log s))
    by (unfold s1, s0; autorewrite with fields; reflexivity).
  assert (Hs : scheduled s1 = scheduled s)
    by (unfold s1, s0; autorewrite with fields; reflexivity).
  assert (Hq : audio_queue s1 = audio_queue s)
    by (unfold s1, s0; autorewrite with fields; reflexivity).
  destruct (recording s1) eqn:Hrec.
  - rewrite Hd.
    set (s2 := record_frame s1 (indata f) (rms_of (indata f))
                 (frame_duration s (frames f))).
    assert (Hrd : (recording_duration s2 <= t + frame_duration s (frames f))%Q).
    { unfold s2. autorewrite with fields. specialize (Hbound eq_refl). lra. }
    assert (Hstop : _should_stop_recording s2 = false).
    { destruct (_should_stop_recording s2) eqn:E; [|reflexivity].
      apply should_stop_iff in E. destruct E as (E & _).
      unfold s2 in E at 1. rewrite record_frame_config, Hc in E. lra. }
    rewrite Hstop. unfold s2 at 1 2 3. autorewrite with fields. auto.
  - rewrite Hrec. repeat split; try assumption. discriminate.
Qed.

Lemma feed_below_min (fs : list Frame) :
  forall (s : AudioReceiver) (t : Q),
    (0 < sample_rate (config s))%Z ->
    Forall (fun f => (0 < frames f)%Z) fs ->
    (recording s = true -> recording_duration s <= t)%Q ->
    (0 <= t)%Q ->
    (accumulate (config s) t fs < min_duration (config s))%Q ->
    exists s',
      feed s fs = Ok s' /\
      handoffs (log s') = handoffs (log s) /\
      scheduled s' = scheduled s /\
      audio_queue s' = audio_queue s.
Proof.
  induction fs as [|f fs IH]; intros s t Hsr Hall Hinv Ht Hmin.
  - exists s. simpl. auto.
  - inversion Hall as [|? ? Hf Hall']; subst.
    rewrite accumulate_cons in Hmin.
    pose proof (accumulate_mono (config s) fs Hsr Hall'
                  (t + inject_Z (frames f) / inject_Z (sample_rate (config s)))%Q)
      as Hmono.
    pose proof (duration_pos _ _ Hf Hsr) as Hpos.
    destruct (callback_below_min s f t Hinv Ht) as (Hh & Hs & Hq & Hrd).
    { unfold frame_duration. lra. }
    simpl. rewrite audio_callback_ok by lia. simpl.
    destruct (IH (after_callback s f)
                (t + inject_Z (frames f) / inject_Z (sample_rate (config s)))%Q)
      as (s' & Hfeed & Hh' & Hs' & Hq').
    + rewrite after_callback_config. exact Hsr.
    + exact Hall'.
    + exact Hrd.
    + lra.
    + rewrite after_callback_config. exact Hmin.
    + exists s'. repeat split; [exact Hfeed | | |]; congruence.
Qed.

(** ** C2 *)




(** ** C3 *)

(** The receiver at the stop test of a frame above the threshold. *)
Lemma at_stop_test_loud (s : AudioReceiver) (f : Frame) (t : Q) :
  loud (config s) f = true ->
  accumulated s t ->
  let s1 := detect (warn_status s (status f)) (indata f) (rms_of (indata f))
              (frames f) in
  let s2 := at_stop_test s f in
  recording s1 = true /\
  recording s2 = true /\
  config s2 = config s /\
  recording_duration s2 = (t + frame_duration s (frames f))%Q /\
  silence_counter s2 = 0%Q /\
  handoffs (log s2) = handoffs (log s) /\
  starts (log s2) = (starts (log s) + if recording s then 0 else 1)%nat.
Proof.
  intros Hloud Hacc s1 s2. unfold s2, at_stop_test. fold s1.
  set (s0 := warn_status s (status f)) in *.
  assert (Hle : rms_le (rms_of (indata f)) (audio_threshold (config s)) = false)
    by (apply rms_gt_not_le; exact Hloud).
  assert (Hc : config s1 = config s)
    by (unfold s1, s0; autorewrite with fields; reflexivity).
  rewrite (frame_duration_same s1 s _ Hc).
  unfold accumulated in Hacc.
  destruct (recording s) eqn:Hrec.
  - assert (E : s1 = update_pre_roll s0 (indata f) (frames f)).
    { unfold s1. apply detect_recording. unfold s0.
      autorewrite with fields. exact Hrec. }
    autorewrite with fields. rewrite Hc, Hle. rewrite E. unfold s0.
    autorewrite with fields. rewrite Hrec, Hacc.
    repeat split; try reflexivity. lia.
  - assert (E : s1 = _start_recording (update_pre_roll s0 (indata f) (frames f))).
    { unfold s1. apply detect_start; unfold s0; autorewrite with fields.
      - exact Hrec.
      - exact Hloud. }
    autorewrite with fields. rewrite Hc, Hle. rewrite E. unfold s0.
    autorewrite with fields. rewrite Hacc.
    repeat split; try reflexivity.
    + rewrite handoffs_app. autorewrite with fields.
      change (handoffs [LogStartedRecording]) with 0%nat. lia.
    + rewrite starts_app. autorewrite with fields. reflexivity.
Qed.

(** Frames above the threshold whose accumulated duration stays under
    [max_duration] complete no segment: the silence run is zero. *)
Lemma feed_loud (fs : list Frame) :
  forall (s : AudioReceiver) (t : Q),
    (0 < sample_rate (config s))%Z ->
    (0 < silence_threshold (config s))%Q ->
    Forall (fun f => (0 < frames f)%Z /\ loud (config s) f = true) fs ->
    accumulated s t ->
    (accumulate (config s) t fs < max_duration (config s))%Q ->
    exists s',
      feed s fs = Ok s' /\
      config s' = config s /\
      handoffs (log s') = handoffs (log s) /\
      accumulated s' (accumulate (config s) t fs).
Proof.
  induction fs as [|f fs IH]; intros s t Hsr Hsil Hall Hacc Hmax.
  - exists s. simpl. auto.
  - inversion Hall as [|? ? [Hf Hloud] Hall']; subst.
    rewrite accumulate_cons in *.
    assert (Hpos : Forall (fun f => (0 < frames f)%Z) fs)
      by (eapply Forall_impl; [|exact Hall']; simpl; tauto).
    pose proof (accumulate_mono (config s) fs Hsr Hpos
                  (t + inject_Z (frames f) / inject_Z (sample_rate (config s)))%Q)
      as Hmono.
    destruct (at_stop_test_loud s f t Hloud Hacc)
      as (Hr1 & Hr2 & Hc2 & Hrd & Hsc & Hh & _).
    assert (Hstop : _should_stop_recording (at_stop_test s f) = false).
    { destruct (_should_stop_recording (at_stop_test s f)) eqn:E; [|reflexivity].
      apply should_stop_iff in E. rewrite Hc2, Hrd, Hsc in E.
      unfold frame_duration in E. lra. }
    assert (Hafter : after_callback s f = at_stop_test s f).
    { unfold after_callback. rewrite Hr1, Hstop. reflexivity. }
    simpl. rewrite audio_callback_ok by lia. simpl. rewrite Hafter.
    destruct (IH (at_stop_test s f)
                (t + inject_Z (frames f) / inject_Z (sample_rate (config s)))%Q)
      as (s' & Hfeed & Hc' & Hh' & Hacc').
    + rewrite Hc2. exact Hsr.
    + rewrite Hc2. exact Hsil.
    + rewrite Hc2. exact Hall'.
    + unfold accumulated. rewrite Hr2. exact Hrd.
    + rewrite Hc2. exact Hmax.
    + exists s'. rewrite Hc2 in *. repeat split; try assumption. congruence.
Qed.

(** A frame above the threshold that takes the accumulated duration to
    [max_duration], itself at least [min_duration], completes the
    segment. *)
Lemma callback_loud_reaches_max (s : AudioReceiver) (f : Frame) (t : Q) :
  loud (config s) f = true ->
  accumulated s t ->
  (min_duration (config s) <= max_duration (config s))%Q ->
  (max_duration (config s) <= t + frame_duration s (frames f))%Q ->
  after_callback s f = after_stop (at_stop_test s f).
Proof.
  intros Hloud Hacc Hmm Hmax.
  destruct (at_stop_test_loud s f t Hloud Hacc)
    as (Hr1 & Hr2 & Hc2 & Hrd & Hsc & Hh & _).
  unfold after_callback. rewrite Hr1.
  assert (Hstop : _should_stop_recording (at_stop_test s f) = true).
  { apply should_stop_iff. rewrite Hc2, Hrd. split; [lra | right; lra]. }
  rewrite Hstop. reflexivity.
Qed.

(** An idle receiver that meets a frame above the threshold starts a
    recording. *)
Lemma callback_idle_loud_starts (s : AudioReceiver) (f : Frame) :
  recording s = false ->
  loud (config s) f = true ->
  starts (log (after_callback s f)) = S (starts (log s)).
Proof.
  intros Hrec Hloud.
  assert (Hacc : accumulated s 0) by (unfold accumulated; rewrite Hrec; reflexivity).
  destruct (at_stop_test_loud s f 0 Hloud Hacc)
    as (Hr1 & _ & _ & _ & _ & _ & Hst).
  rewrite Hrec in Hst.
  unfold after_callback. rewrite Hr1.
  destruct (_should_stop_recording _); autorewrite with fields; lia.
Qed.




(** ** C10 *)

Lemma update_pre_roll_last (s : AudioReceiver) i n :
  (1 <= pre_roll_frames (config s) n)%Z \/ pre_roll_buffer s <> [] ->
  exists pre, pre_roll_buffer (update_pre_roll s i n) = pre ++ [i].
Proof.
  intros H. unfold update_pre_roll. simpl.
  destruct (Z.ltb_spec (pre_roll_frames (config s) n)
              (Z.of_nat (length (pre_roll_buffer s ++ [i])))) as [Hlt|Hge].
  - destruct (pre_roll_buffer s) as [|b bs] eqn:E.
    + simpl in Hlt. destruct H as [H|H]; [lia | congruence].
    + exists bs. reflexivity.
  - exists (pre_roll_buffer s). reflexivity.
Qed.

(** C10, as amended. When the pre-roll buffer keeps at least one block
    (its capacity for the frame is at least one, or it held a block
    already), the frame that starts a recording is in the utterance buffer
    twice: the buffer is seeded with the pre-roll, whose last block is the
    frame, and the recording handler appends the frame again. If the
    segment completes on the same frame, the utterance handed off ends
    with the two copies. *)
Theorem C10_trigger_frame_twice (s : AudioReceiver) (f : Frame) :
  recording s = false ->
  loud (config s) f = true ->
  frames f <> 0%Z ->
  sample_rate (config s) <> 0%Z ->
  (1 <= pre_roll_frames (config s) (frames f))%Z \/ pre_roll_buffer s <> [] ->
  exists pre s',
    _audio_callback s (indata f) (frames f) (status f) = Ok s' /\
    starts (log s') = S (starts (log s)) /\
    pre_roll_buffer s' = pre ++ [indata f] /\
    (recording s' = true ->
     audio_frames s' = pre ++ [indata f; indata f]) /\
    (recording s' = false ->
     scheduled s' = if accepts s
                    then scheduled s ++ [concat (pre ++ [indata f; indata f])]
                    else scheduled s).
Proof.
  intros Hrec Hloud Hn Hsr Hkeep.
  set (s0 := warn_status s (status f)).
  destruct (update_pre_roll_last s0 (indata f) (frames f)) as (pre & Hpre).
  { unfold s0. autorewrite with fields. exact Hkeep. }
  exists pre, (after_callback s f).
  split; [apply audio_callback_ok; assumption|].
  split; [apply callback_idle_loud_starts; assumption|].
  split; [rewrite after_callback_pre_roll_buffer; exact Hpre|].
  assert (Hacc : accumulated s 0)
    by (unfold accumulated; rewrite Hrec; reflexivity).
  destruct (at_stop_test_loud s f 0 Hloud Hacc)
    as (Hr1 & Hr2 & Hc2 & _).
  assert (Hfr : audio_frames (at_stop_test s f) = pre ++ [indata f; indata f]).
  { unfold at_stop_test. fold s0. autorewrite with fields.
    rewrite detect_start; unfold s0; autorewrite with fields;
      [|exact Hrec|exact Hloud].
    fold s0. rewrite Hpre, <- app_assoc. reflexivity. }
  assert (Hacp : accepts (at_stop_test s f) = accepts s).
  { apply accepts_same; [| exact Hc2 |];
      unfold at_stop_test; autorewrite with fields; reflexivity. }
  assert (Hsch : scheduled (at_stop_test s f) = scheduled s)
    by (unfold at_stop_test; autorewrite with fields; reflexivity).
  unfold after_callback. rewrite Hr1.
  destruct (_should_stop_recording (at_stop_test s f)).
  - autorewrite with fields. rewrite Hacp, Hfr, Hsch.
    split; [discriminate | reflexivity].
  - rewrite Hr2. split; [intros _; exact Hfr | discriminate].
Qed.

Lemma C10_trigger_frame_twice_witness :
  exists pre s',
    _audio_callback (started cfg_short) [1%Q] 1 None = Ok s' /\
    pre_roll_buffer s' = pre ++ [[1%Q]] /\
    audio_frames s' = pre ++ [[1%Q]; [1%Q]].
Proof.
  destruct (C10_trigger_frame_twice (started cfg_short) loud_frame)
    as (pre & s' & Hcb & _ & Hpre & Hrec & _).
  - reflexivity.
  - reflexivity.
  - discriminate.
  - discriminate.
  - left. vm_compute. discriminate.
  - exists pre, s'. split; [exact Hcb|]. split; [exact Hpre|].
    apply Hrec. vm_compute in Hcb. injection Hcb as <-. reflexivity.
Defined.

(** C10 as stated fails: without pre-roll the buffer is empty again after
    its update, so the frame that starts the recording is in the utterance
    buffer once. *)
Lemma C10_counterexample :
  recording (started cfg_no_pre_roll) = false /\
  loud cfg_no_pre_roll loud_frame = true /\
  exists s',
    _audio_callback (started cfg_no_pre_roll) (indata loud_frame)
      (frames loud_frame) (status loud_frame) = Ok s' /\
    recording s' = true /\
    starts (log s') = 1%nat /\
    audio_frames s' = [indata loud_frame].
Proof.
  split; [reflexivity|]. split; [reflexivity|].
  eexists. split; [vm_compute; reflexivity|].
  repeat split; reflexivity.
Qed.

(** ** The hand-off queue *)

Lemma audio_callback_inv (s s' : AudioReceiver) (f : Frame) :
  _audio_callback s (indata f) (frames f) (status f) = Ok s' ->
  s' = after_callback s f.
Proof.
  unfold _audio_callback, after_callback, at_stop_test.
  destruct (frames f =? 0)%Z; [discriminate|].
  set (s1 := detect _ _ _ _).
  destruct (recording s1); [|congruence].
  unfold _handle_recording.
  destruct (sample_rate (config s1) =? 0)%Z; [discriminate|].
  destruct (_should_stop_recording _).
  - rewrite stop_recording_ok; [congruence|].
    rewrite record_frame_frames.
    intros H. apply app_eq_nil in H. destruct H; discriminate.
  - congruence.
Qed.

(** The callback leaves the queue alone and adds at most at the end of
    the scheduled puts. *)
Lemma after_callback_channel (s : AudioReceiver) (f : Frame) :
  audio_queue (after_callback s f) = audio_queue s /\
  exists added, scheduled (after_callback s f) = scheduled s ++ added.
Proof.
  unfold after_callback, at_stop_test.
  set (s1 := detect _ _ _ _).
  assert (Hq : audio_queue s1 = audio_queue s)
    by (unfold s1; autorewrite with fields; reflexivity).
  assert (Hs : scheduled s1 = scheduled s)
    by (unfold s1; autorewrite with fields; reflexivity).
  destruct (recording s1).
  - destruct (_should_stop_recording _); autorewrite with fields.
    + split; [exact Hq|]. rewrite Hs.
      destruct (accepts _); [eexists; reflexivity|].
      exists []. rewrite app_nil_r. reflexivity.
    + split; [exact Hq|]. exists []. rewrite app_nil_r. exact Hs.
  - split; [exact Hq|]. exists []. rewrite app_nil_r. exact Hs.
Qed.

Lemma put_step_channel (s s' : AudioReceiver) :
  put_step s = Some s' -> channel s' = channel s.
Proof.
  unfold put_step, channel.
  destruct (scheduled s) as [|a rest]; [discriminate|].
  destruct (full s); [discriminate|].
  intros H. injection H as <-. simpl. rewrite <- app_assoc. reflexivity.
Qed.

Lemma logger_all_channel (l : list LogRecord) :
  forall s, audio_queue (logger_all s l) = audio_queue s /\
            scheduled (logger_all s l) = scheduled s /\
            sink_calls (logger_all s l) = sink_calls s.
Proof.
  induction l as [|r l IH]; intros s; simpl; [auto|].
  destruct (IH (logger s r)) as (H1 & H2 & H3). auto.
Qed.

Section ProcessingFacts.

Context {B : Type} `{TranscriptionService B}.
Variable transcription_service : B.
Variable on_transcription : string -> result unit.
Variable _save_debug_data : ndarray -> string -> result unit.

Lemma transcribe_audio_channel (s : AudioReceiver) (audio_data : ndarray) :
  audio_queue
    (_transcribe_audio transcription_service on_transcription _save_debug_data
       s audio_data) = audio_queue s /\
  scheduled
    (_transcribe_audio transcription_service on_transcription _save_debug_data
       s audio_data) = scheduled s.
Proof.
  unfold _transcribe_audio, transcribe_try.
  destruct (transcribe transcription_service audio_data) as [r l].
  destruct (logger_all_channel l (logger s LogSendingAudio)) as (Hq & Hs & _).
  destruct r as [[res|]|e]; simpl; auto.
  destruct (truthy (text res)); simpl; auto.
  destruct (on_transcription (text res)); simpl; auto.
  destruct (debug_mode _); simpl; auto.
  destruct (_save_debug_data audio_data (text res)); simpl; auto.
Qed.

Lemma sys_step_fifo c got c' :
  sys_step transcription_service on_transcription _save_debug_data c got c' ->
  exists added, got ++ channel (snd c') = channel (snd c) ++ added.
Proof.
  intros Hstep. destruct Hstep as [pc s f s' Hcb | pc s s' Hput | pc s pc' s' Hdr];
    simpl.
  - apply audio_callback_inv in Hcb. subst s'.
    destruct (after_callback_channel s f) as (Hq & added & Hs).
    exists added. unfold channel. rewrite Hq, Hs, app_assoc. reflexivity.
  - exists []. rewrite app_nil_r. apply put_step_channel. exact Hput.
  - exists []. rewrite app_nil_r. unfold drain_step, dequeued in *.
    destruct pc.
    + destruct (terminate_flag s); injection Hdr as _ <-; reflexivity.
    + destruct (audio_queue s) as [|a rest] eqn:E; [discriminate|].
      injection Hdr as _ <-.
      destruct (transcribe_audio_channel (set_audio_queue s rest) a)
        as (Hq & Hs).
      unfold channel. rewrite Hq, Hs, E. reflexivity.
    + discriminate.
Qed.

Lemma sys_run_fifo c got c' :
  sys_run transcription_service on_transcription _save_debug_data c got c' ->
  exists added, got ++ channel (snd c') = channel (snd c) ++ added.
Proof.
  induction 1 as [c | c1 got1 c2 got2 c3 Hstep _ (added2 & IH)].
  - exists []. rewrite app_nil_r. reflexivity.
  - destruct (sys_step_fifo _ _ _ Hstep) as (added1 & H1).
    exists (added1 ++ added2).
    rewrite <- app_assoc, IH, !app_assoc, H1. reflexivity.
Qed.

End ProcessingFacts.

(** ** C6 *)



(** ** C7 *)

(** C7 at the failing input. The drain loop is suspended in [get()] on an
    empty queue with no put pending when [stop] sets the flag: the flag is
    set, yet neither the drain loop nor the event loop can move, and the
    coroutine has not returned. *)
Theorem C7_drain_blocked_after_stop {B : Type} `{TranscriptionService B}
    (svc : B) (sink : string -> result unit)
    (save : ndarray -> string -> result unit) (s : AudioReceiver) :
  audio_queue s = [] ->
  scheduled s = [] ->
  terminate_flag (stop s) = true /\
  drain_step svc sink save AtGet (stop s) = None /\
  put_step (stop s) = None /\
  (forall c', ~ quiet_step svc sink save (AtGet, stop s) c') /\
  drain_step svc sink save AtWhile (stop s) = Some (Returned, stop s).
Proof.
  intros Hq Hs.
  assert (Hd : drain_step svc sink save AtGet (stop s) = None)
    by (unfold drain_step, stop; simpl; rewrite Hq; reflexivity).
  assert (Hp : put_step (stop s) = None)
    by (unfold put_step, stop; simpl; rewrite Hs; reflexivity).
  repeat split; try assumption.
  intros c' Hstep. inversion Hstep; subst; congruence.
Qed.

Lemma C7_drain_blocked_after_stop_witness :
  terminate_flag (stop (started cfg_short)) = true /\
  drain_step chirp_silent sink_ok save_ok AtGet (stop (started cfg_short))
  = None.
Proof.
  destruct (C7_drain_blocked_after_stop chirp_silent sink_ok save_ok
              (started cfg_short)) as (Hflag & Hdrain & _).
  - reflexivity.
  - reflexivity.
  - split; assumption.
Defined.

(** ** C8 *)

(** C8, as amended. [transcribe] of either service returns and raises no
    exception. When writing the WAV or the call to the recognizer raises,
    it returns [None] and logs the error. Chirp returns [None] when the
    response has no result. Whisper returns a result whenever the call
    answers with a text, the text of the result being empty when the
    answer is blank. Whatever the service does, the drain loop that took
    the utterance is back at its loop test afterwards. *)
Theorem C8_transcribe_contains_failures (chirp : GoogleChirpService)
    (whisper : OpenAIWhisperService) (audio_data : ndarray) :
  (exists r l, transcribe chirp audio_data = (Ok r, l)) /\
  (exists r l, transcribe whisper audio_data = (Ok r, l)) /\
  (forall e,
     chirp_sf_write chirp audio_data (tc_sample_rate (chirp_config chirp))
     = Raised e ->
     transcribe chirp audio_data = (Ok None, [LogChirpError e])) /\
  (forall wav recognize e,
     chirp_sf_write chirp audio_data (tc_sample_rate (chirp_config chirp))
     = Ok wav ->
     chirp_client chirp = Some recognize ->
     recognize (chirp_request (chirp_config chirp) wav) = Raised e ->
     transcribe chirp audio_data = (Ok None, [LogSendingAudio; LogChirpError e])) /\
  (forall wav recognize response,
     chirp_sf_write chirp audio_data (tc_sample_rate (chirp_config chirp))
     = Ok wav ->
     chirp_client chirp = Some recognize ->
     recognize (chirp_request (chirp_config chirp) wav) = Ok response ->
     chirp_no_speech response ->
     transcribe chirp audio_data = (Ok None, [LogSendingAudio])) /\
  (forall e,
     whisper_sf_write whisper audio_data (tc_sample_rate (whisper_config whisper))
     = Raised e ->
     transcribe whisper audio_data = (Ok None, [LogWhisperError e])) /\
  (forall wav create e,
     whisper_sf_write whisper audio_data (tc_sample_rate (whisper_config whisper))
     = Ok wav ->
     whisper_client whisper = Some create ->
     create {| whisper_model := "whisper-1"%string;
               whisper_file := wav;
               whisper_file_name := "audio.wav"%string;
               whisper_language := before_dash (language (whisper_config whisper)) |}
     = Raised e ->
     transcribe whisper audio_data
     = (Ok None, [LogSendingWhisper; LogWhisperError e])) /\
  (forall wav create response t,
     whisper_sf_write whisper audio_data (tc_sample_rate (whisper_config whisper))
     = Ok wav ->
     whisper_client whisper = Some create ->
     create {| whisper_model := "whisper-1"%string;
               whisper_file := wav;
               whisper_file_name := "audio.wav"%string;
               whisper_language := before_dash (language (whisper_config whisper)) |}
     = Ok response ->
     getitem response "text"%string = Ok t ->
     transcribe whisper audio_data
     = (Ok (Some {| text := strip t; confidence := 1;
                    result_language := language (whisper_config whisper);
                    metadata := None |}),
        [LogSendingWhisper])) /\
  (forall (B : Type) (S : TranscriptionService B) (svc : B)
          (sink : string -> result unit)
          (save : ndarray -> string -> result unit)
          (s : AudioReceiver) (rest : list ndarray),
     audio_queue s = audio_data :: rest ->
     exists s',
       drain_step svc sink save AtGet s = Some (AtWhile, s') /\
       audio_queue s' = rest /\
       terminate_flag s' = terminate_flag s).
Proof.
  split; [|split; [|split; [|split; [|split; [|split; [|split; [|split]]]]]]].
  - simpl. unfold chirp_transcribe.
    destruct (chirp_try chirp audio_data) as [[r|e] l]; eexists; eexists;
      reflexivity.
  - simpl. unfold whisper_transcribe.
    destruct (whisper_try whisper audio_data) as [[r|e] l]; eexists; eexists;
      reflexivity.
  - intros e Hw. simpl. unfold chirp_transcribe, chirp_try, _prepare_audio.
    rewrite Hw. reflexivity.
  - intros wav recognize e Hw Hc Hr. simpl.
    unfold chirp_transcribe, chirp_try, _prepare_audio.
    rewrite Hw, Hc, Hr. reflexivity.
  - intros wav recognize response Hw Hc Hr Hno. simpl.
    unfold chirp_transcribe, chirp_try, _prepare_audio.
    rewrite Hw, Hc, Hr. unfold chirp_no_speech in Hno. rewrite Hno.
    reflexivity.
  - intros e Hw. simpl. unfold whisper_transcribe, whisper_try, _prepare_audio.
    rewrite Hw. reflexivity.
  - intros wav create e Hw Hc Hr. simpl.
    unfold whisper_transcribe, whisper_try, _prepare_audio.
    rewrite Hw, Hc, Hr. reflexivity.
  - intros wav create response t Hw Hc Hr Ht. simpl.
    unfold whisper_transcribe, whisper_try, _prepare_audio.
    rewrite Hw, Hc, Hr, Ht. reflexivity.
  - intros B S svc sink save s rest Hq. unfold drain_step. rewrite Hq.
    eexists. split; [reflexivity|].
    destruct (transcribe_audio_channel svc sink save (set_audio_queue s rest)
                audio_data) as (Hq' & _).
    split; [exact Hq'|].
    unfold _transcribe_audio, transcribe_try.
    destruct (transcribe svc audio_data) as [r l].
    assert (Hl : forall l0 s0, terminate_flag (logger_all s0 l0) = terminate_flag s0).
    { induction l0 as [|x l0 IH]; intros s0; simpl; [reflexivity|].
      rewrite IH. reflexivity. }
    destruct r as [[res|]|e]; simpl; rewrite ?Hl; try reflexivity.
    destruct (truthy (text res)); simpl; rewrite ?Hl; try reflexivity.
    destruct (sink (text res)); simpl; rewrite ?Hl; try reflexivity.
    destruct (debug_mode _); simpl; rewrite ?Hl; try reflexivity.
    destruct (save audio_data (text res)); simpl; rewrite ?Hl; reflexivity.
Qed.

Lemma C8_transcribe_contains_failures_witness :
  transcribe whisper_down [1%Q]
  = (Ok None,
     [LogSendingWhisper;
      LogWhisperError (Exc OtherException "connection refused"%string)]).
Proof.
  destruct (C8_transcribe_contains_failures chirp_silent whisper_down [1%Q])
    as (_ & _ & _ & _ & _ & _ & Hdown & _).
  eapply Hdown; reflexivity.
Defined.

(** C8 as stated fails for Whisper: when the recognizer answers with a
    blank text, [transcribe] returns a result with an empty text, not the
    absent result. *)
Lemma C8_counterexample :
  whisper_no_speech [("text", " ")]%string /\
  exists res l,
    transcribe whisper_blank [0%Q] = (Ok (Some res), l) /\
    text res = EmptyString /\
    fst (transcribe whisper_blank [0%Q]) <> Ok None.
Proof.
  split.
  - exists " "%string. split; reflexivity.
  - eexists. eexists. split; [vm_compute; reflexivity|].
    split; [reflexivity|]. vm_compute. discriminate.
Qed.

(** ** C9 *)

(** C9. For an utterance taken by the drain loop the sink is called at
    most once: once, with the text of the result, when the service
    returned a result whose text is not empty; not at all when the service
    returned the absent result, a result with an empty text, or raised. *)
Theorem C9_sink_called_iff_text {B : Type} `{TranscriptionService B}
    (svc : B) (sink : string -> result unit)
    (save : ndarray -> string -> result unit) (s : AudioReceiver)
    (audio_data : ndarray) :
  let s' := _transcribe_audio svc sink save s audio_data in
  (forall res,
     fst (transcribe svc audio_data) = Ok (Some res) ->
     text res <> EmptyString ->
     sink_calls s' = sink_calls s ++ [text res]) /\
  (forall res,
     fst (transcribe svc audio_data) = Ok (Some res) ->
     text res = EmptyString ->
     sink_calls s' = sink_calls s) /\
  (fst (transcribe svc audio_data) = Ok None -> sink_calls s' = sink_calls s) /\
  (forall e,
     fst (transcribe svc audio_data) = Raised e -> sink_calls s' = sink_calls s) /\
  (length (sink_calls s') <= S (length (sink_calls s)))%nat.
Proof.
  intros s'. unfold s', _transcribe_audio, transcribe_try.
  destruct (transcribe svc audio_data) as [r l]. simpl.
  destruct (logger_all_channel l (logger s LogSendingAudio)) as (_ & _ & Hk).
  simpl in Hk.
  assert (Hsink :
    forall res, truthy (text res) = true ->
      sink_calls
        (match
           (let s0 := logger (logger_all (logger s LogSendingAudio) l)
                        (LogTranscribed (text res)) in
            let s1 := call_sink s0 (text res) in
            match sink (text res) with
            | Ok _ => if debug_mode s1
                      then (s1, save audio_data (text res))
                      else (s1, Ok tt)
            | Raised e => (s1, Raised e)
            end)
         with
         | (s2, Ok _) => s2
         | (s2, Raised e) => logger s2 (LogTranscriptionError e)
         end)
      = sink_calls s ++ [text res]).
  { intros res _. simpl.
    destruct (sink (text res)); simpl.
    - destruct (debug_mode _); simpl.
      + destruct (save audio_data (text res)); simpl; rewrite Hk; reflexivity.
      + rewrite Hk. reflexivity.
    - rewrite Hk. reflexivity. }
  destruct r as [[res|]|e]; simpl.
  - destruct (truthy (text res)) eqn:Ht.
    + specialize (Hsink res Ht). simpl in Hsink.
      repeat split; try discriminate.
      * intros res' E _. injection E as <-. exact Hsink.
      * intros res' E Hempty. injection E as <-.
        rewrite Hempty in Ht. discriminate.
      * rewrite Hsink, length_app. simpl. lia.
    + simpl. rewrite Hk. repeat split; try discriminate; try reflexivity.
      * intros res' E Hne. injection E as <-.
        destruct (text res); [congruence | discriminate].
      * lia.
  - rewrite Hk. repeat split; try discriminate; try reflexivity. lia.
  - rewrite Hk. repeat split; try discriminate; try reflexivity. lia.
Qed.

(** * Further properties *)

(** ** The configuration *)

Lemma with_post_roll_after_stop (s : AudioReceiver) (p : Q) :
  after_stop (with_post_roll s p) = with_post_roll (after_stop s) p.
Proof.
  unfold after_stop, enqueue_try, with_post_roll, full. simpl.
  destruct (loop s); simpl; try reflexivity;
    destruct (queue_size (config s) <=? 0)%Z; simpl; try reflexivity;
    destruct (queue_size (config s) <=? Z.of_nat (length (audio_queue s)))%Z;
    reflexivity.
Qed.

Lemma with_post_roll_after_callback (s : AudioReceiver) (f : Frame) (p : Q) :
  after_callback (with_post_roll s p) f = with_post_roll (after_callback s f) p.
Proof.
  unfold after_callback, at_stop_test.
  assert (Hdet : forall i r n,
             detect (warn_status (with_post_roll s p) (status f)) i r n
             = with_post_roll (detect (warn_status s (status f)) i r n) p).
  { intros i r n. unfold detect, update_pre_roll, _start_recording, warn_status,
      with_post_roll.
    destruct (status f); simpl;
      destruct (_ <? _)%Z; simpl;
      destruct (recording s); simpl; try reflexivity;
      destruct (rms_gt r (audio_threshold (config s))); reflexivity. }
  rewrite Hdet.
  set (s1 := detect (warn_status s (status f)) (indata f) (rms_of (indata f))
               (frames f)).
  change (recording (with_post_roll s1 p)) with (recording s1).
  destruct (recording s1); [|reflexivity].
  assert (Hrec : record_frame (with_post_roll s1 p) (indata f) (rms_of (indata f))
                   (frame_duration (with_post_roll s1 p) (frames f))
                 = with_post_roll
                     (record_frame s1 (indata f) (rms_of (indata f))
                        (frame_duration s1 (frames f))) p).
  { unfold record_frame, frame_duration, with_post_roll. simpl.
    destruct (rms_le _ _); reflexivity. }
  rewrite Hrec.
  set (s2 := record_frame s1 _ _ _).
  change (_should_stop_recording (with_post_roll s2 p))
    with (_should_stop_recording s2).
  destruct (_should_stop_recording s2); [|reflexivity].
  apply with_post_roll_after_stop.
Qed.

(** X1. [post_roll] has no part in the detection: a receiver built with
    another [post_roll] answers every frame the same way, with the same
    exception or the same receiver but for that field. *)
Theorem X1_post_roll_is_ignored (s : AudioReceiver) (f : Frame) (p : Q) :
  _audio_callback (with_post_roll s p) (indata f) (frames f) (status f)
  = match _audio_callback s (indata f) (frames f) (status f) with
    | Ok s' => Ok (with_post_roll s' p)
    | Raised e => Raised e
    end.
Proof.
  destruct (Z.eq_dec (frames f) 0) as [Hz|Hn].
  - unfold _audio_callback. rewrite Hz. reflexivity.
  - destruct (Z.eq_dec (sample_rate (config s)) 0) as [Hsz|Hsr].
    + unfold _audio_callback.
      apply Z.eqb_neq in Hn. rewrite Hn.
      pose proof (with_post_roll_after_callback s f p) as Hac.
      unfold after_callback in Hac.
      assert (Hdet : detect (warn_status (with_post_roll s p) (status f))
                       (indata f) (rms_of (indata f)) (frames f)
                     = with_post_roll
                         (detect (warn_status s (status f)) (indata f)
                            (rms_of (indata f)) (frames f)) p).
      { unfold detect, update_pre_roll, _start_recording, warn_status,
          with_post_roll.
        destruct (status f); simpl;
          destruct (_ <? _)%Z; simpl;
          destruct (recording s); simpl; try reflexivity;
          destruct (rms_gt _ (audio_threshold (config s))); reflexivity. }
      rewrite Hdet.
      set (s1 := detect (warn_status s (status f)) (indata f)
                   (rms_of (indata f)) (frames f)).
      change (recording (with_post_roll s1 p)) with (recording s1).
      destruct (recording s1); [|reflexivity].
      unfold _handle_recording.
      assert (Hc : sample_rate (config s1) = 0%Z)
        by (unfold s1; rewrite detect_config, warn_status_config; exact Hsz).
      change (sample_rate (config (with_post_roll s1 p)))
        with (sample_rate (config s1)).
      rewrite Hc. reflexivity.
    + rewrite (audio_callback_ok s f Hn Hsr).
      rewrite (audio_callback_ok (with_post_roll s p) f Hn Hsr).
      rewrite with_post_roll_after_callback. reflexivity.
Qed.

(** ** Invariants of the callback *)

Lemma after_callback_cases (s : AudioReceiver) (f : Frame) :
  let s1 := detect (warn_status s (status f)) (indata f) (rms_of (indata f))
              (frames f) in
  (recording s1 = false /\ after_callback s f = s1) \/
  (recording s1 = true /\
   (after_callback s f = at_stop_test s f \/
    after_callback s f = after_stop (at_stop_test s f))).
Proof.
  intros s1. unfold after_callback. fold s1.
  destruct (recording s1); [right|left; auto].
  split; [reflexivity|].
  destruct (_should_stop_recording _); auto.
Qed.

(** A property kept by the callback on every frame is kept by a run. *)
Lemma feed_preserves (P : AudioReceiver -> Prop) :
  (forall s f,
      (0 < sample_rate (config s))%Z -> (0 < frames f)%Z ->
      P s -> P (after_callback s f)) ->
  forall fs s,
    (0 < sample_rate (config s))%Z ->
    Forall (fun f => (0 < frames f)%Z) fs ->
    P s ->
    exists s', feed s fs = Ok s' /\ config s' = config s /\ P s'.
Proof.
  intros Hstep. induction fs as [|f fs IH]; intros s Hsr Hall HP.
  - exists s. simpl. auto.
  - inversion Hall as [|? ? Hf Hall']; subst. simpl.
    rewrite audio_callback_ok by lia. simpl.
    destruct (IH (after_callback s f)) as (s' & Hfeed & Hc & HP').
    + rewrite after_callback_config. exact Hsr.
    + exact Hall'.
    + apply Hstep; assumption.
    + exists s'. rewrite after_callback_config in Hc. auto.
Qed.

Lemma detect_counters (s : AudioReceiver) i r n :
  (recording_duration (detect s i r n) = recording_duration s /\
   silence_counter (detect s i r n) = silence_counter s) \/
  (recording_duration (detect s i r n) = 0%Q /\
   silence_counter (detect s i r n) = 0%Q).
Proof.
  destruct (detect_cases s i r n) as [-> | (_ & _ & ->)];
    autorewrite with fields; auto.
Qed.

Lemma callback_counters_ok (s : AudioReceiver) (f : Frame) :
  (0 < sample_rate (config s))%Z -> (0 < frames f)%Z ->
  counters_ok s -> counters_ok (after_callback s f).
Proof.
  intros Hsr Hf (H0 & Hle).
  pose proof (duration_pos _ _ Hf Hsr) as Hd.
  set (s0 := warn_status s (status f)).
  set (s1 := detect s0 (indata f) (rms_of (indata f)) (frames f)).
  assert (H1 : counters_ok s1).
  { unfold counters_ok, s1.
    destruct (detect_counters s0 (indata f) (rms_of (indata f)) (frames f))
      as [(-> & ->) | (-> & ->)]; unfold s0; autorewrite with fields;
      [auto | split; lra]. }
  assert (Hc : config s1 = config s)
    by (unfold s1, s0; autorewrite with fields; reflexivity).
  assert (H2 : counters_ok (at_stop_test s f)).
  { unfold at_stop_test. fold s0. fold s1. unfold counters_ok.
    autorewrite with fields. unfold frame_duration. rewrite Hc.
    destruct H1 as (H10 & H1le).
    destruct (rms_le _ _); split; lra. }
  destruct (after_callback_cases s f) as [(_ & ->) | (_ & [-> | ->])].
  - exact H1.
  - exact H2.
  - unfold counters_ok. autorewrite with fields. exact H2.
Qed.



Lemma callback_consistent (s : AudioReceiver) (f : Frame) :
  consistent s -> consistent (after_callback s f).
Proof.
  intros (Hlog & Hidle).
  set (s0 := warn_status s (status f)).
  set (s1 := detect s0 (indata f) (rms_of (indata f)) (frames f)).
  assert (H1 : consistent s1).
  { unfold consistent, s1.
    destruct (detect_cases s0 (indata f) (rms_of (indata f)) (frames f))
      as [-> | (Hrec & _ & ->)]; unfold s0 in *; autorewrite with fields in *.
    - auto.
    - rewrite starts_app, handoffs_app. autorewrite with fields.
      rewrite Hlog, Hrec.
      change (starts [LogStartedRecording]) with 1%nat.
      change (handoffs [LogStartedRecording]) with 0%nat.
      split; [lia | discriminate]. }
  destruct H1 as (H1log & H1idle).
  assert (H2 : recording s1 = true -> consistent (at_stop_test s f)).
  { intros Hrec. unfold at_stop_test. fold s0. fold s1. unfold consistent.
    autorewrite with fields. rewrite Hrec in *.
    split; [exact H1log | discriminate]. }
  destruct (after_callback_cases s f) as [(Hrec & ->) | (Hrec & [-> | ->])].
  - fold s0. fold s1. split; assumption.
  - apply H2. exact Hrec.
  - destruct (H2 Hrec) as (H2log & _).
    assert (Hr2 : recording (at_stop_test s f) = true).
    { unfold at_stop_test. fold s0. fold s1. autorewrite with fields.
      exact Hrec. }
    rewrite Hr2 in H2log.
    unfold consistent. autorewrite with fields. split; [lia | reflexivity].
Qed.

(** X3. The log accounts for every recording: from a fresh receiver, after
    any run of frames, the recordings started are the segments completed
    plus the one in progress, if any, and an idle receiver keeps no
    utterance buffer. *)
Theorem X3_every_recording_accounted (cfg : AudioConfig) (dbg : bool)
    (fs : list Frame) :
  (0 < sample_rate cfg)%Z ->
  Forall (fun f => (0 < frames f)%Z) fs ->
  exists s',
    feed (init cfg dbg) fs = Ok s' /\
    starts (log s') = (handoffs (log s') + if recording s' then 1 else 0)%nat /\
    (recording s' = false -> audio_frames s' = []).
Proof.
  intros Hsr Hall.
  destruct (feed_preserves consistent
              (fun s f _ _ => callback_consistent s f) fs (init cfg dbg))
    as (s' & Hfeed & _ & Hlog & Hidle); try assumption.
  - split; reflexivity.
  - exists s'. auto.
Qed.

Lemma X3_every_recording_accounted_witness :
  exists s',
    feed (init cfg_short_max false)
      [loud_frame; loud_frame; quiet_frame; loud_frame] = Ok s' /\
    starts (log s') = 2%nat /\
    handoffs (log s') = 1%nat /\
    recording s' = true.
Proof.
  destruct (X3_every_recording_accounted cfg_short_max false
              [loud_frame; loud_frame; quiet_frame; loud_frame])
    as (s' & Hfeed & Hlog & _).
  - reflexivity.
  - repeat constructor.
  - exists s'. split; [exact Hfeed|].
    vm_compute in Hfeed. injection Hfeed as <-.
    repeat split; reflexivity.
Defined.

(** ** Hand-offs while the event loop is busy *)

Lemma callback_acceptance (s : AudioReceiver) (f : Frame) :
  accepts (after_callback s f) = accepts s /\
  (accepts s = true ->
   (length (scheduled (after_callback s f)) + handoffs (log s)
    = length (scheduled s) + handoffs (log (after_callback s f)))%nat) /\
  (accepts s = false -> scheduled (after_callback s f) = scheduled s).
Proof.
  set (s0 := warn_status s (status f)).
  set (s1 := detect s0 (indata f) (rms_of (indata f)) (frames f)).
  assert (Ha1 : accepts s1 = accepts s)
    by (apply accepts_same; unfold s1, s0; autorewrite with fields; reflexivity).
  assert (Hs1 : scheduled s1 = scheduled s)
    by (unfold s1, s0; autorewrite with fields; reflexivity).
  assert (Hh1 : handoffs (log s1) = handoffs (log s))
    by (unfold s1, s0; autorewrite with fields; reflexivity).
  assert (Ha2 : accepts (at_stop_test s f) = accepts s).
  { rewrite <- Ha1. apply accepts_same; unfold at_stop_test; fold s0; fold s1;
      autorewrite with fields; reflexivity. }
  assert (Hs2 : scheduled (at_stop_test s f) = scheduled s)
    by (unfold at_stop_test; fold s0; fold s1; autorewrite with fields;
        exact Hs1).
  assert (Hh2 : handoffs (log (at_stop_test s f)) = handoffs (log s))
    by (unfold at_stop_test; fold s0; fold s1; autorewrite with fields;
        exact Hh1).
  destruct (after_callback_cases s f) as [(_ & ->) | (_ & [-> | ->])].
  - fold s0. fold s1. rewrite Ha1, Hs1, Hh1. auto.
  - rewrite Ha2, Hs2, Hh2. auto.
  - split; [|split].
    + rewrite <- Ha2. apply accepts_same; autorewrite with fields; reflexivity.
    + intros Hacc. autorewrite with fields. rewrite Ha2, Hacc, Hs2, Hh2.
      rewrite length_app. simpl. lia.
    + intros Hacc. autorewrite with fields. rewrite Ha2, Hacc. exact Hs2.
Qed.

(** X4. The test for a full queue looks at the items inside the queue and
    not at the puts still pending on the event loop. During a run of frames
    with no step of the event loop in between, the answer is therefore the
    one at the start of the run: if the hand-off was accepted then, every
    segment completed in the run is scheduled, however many there are; if
    not, none is. *)
Theorem X4_burst_acceptance (s : AudioReceiver) (fs : list Frame) :
  (0 < sample_rate (config s))%Z ->
  Forall (fun f => (0 < frames f)%Z) fs ->
  exists s',
    feed s fs = Ok s' /\
    accepts s' = accepts s /\
    audio_queue s' = audio_queue s /\
    (accepts s = true ->
     (length (scheduled s') + handoffs (log s)
      = length (scheduled s) + handoffs (log s'))%nat) /\
    (accepts s = false -> scheduled s' = scheduled s).
Proof.
  intros Hsr Hall.
  pose (P := fun x : AudioReceiver =>
               accepts x = accepts s /\
               audio_queue x = audio_queue s /\
               (accepts s = true ->
                (length (scheduled x) + handoffs (log s)
                 = length (scheduled s) + handoffs (log x))%nat) /\
               (accepts s = false -> scheduled x = scheduled s)).
  destruct (feed_preserves P) with (fs := fs) (s := s)
    as (s' & Hfeed & _ & HP); try assumption.
  - intros x f _ _ (Ha & Hq & Ht & Hf).
    destruct (callback_acceptance x f) as (Ha' & Ht' & Hf').
    destruct (after_callback_channel x f) as (Hq' & _).
    unfold P. rewrite Ha', Ha, Hq', Hq.
    repeat split.
    + intros Hacc. rewrite Ha in Ht'. specialize (Ht Hacc).
      specialize (Ht' Hacc). lia.
    + intros Hacc. rewrite Ha in Hf'. rewrite Hf' by exact Hacc. auto.
  - unfold P. repeat split; auto.
  - exists s'. split; [exact Hfeed | exact HP].
Qed.

Lemma X4_burst_acceptance_witness :
  exists s',
    feed (started cfg_tiny_queue) (repeat loud_frame 6) = Ok s' /\
    queue_size (config s') = 1%Z /\
    audio_queue s' = [] /\
    handoffs (log s') = 3%nat /\
    length (scheduled s') = 3%nat.
Proof.
  destruct (X4_burst_acceptance (started cfg_tiny_queue) (repeat loud_frame 6))
    as (s' & Hfeed & _ & Hq & Hacc & _).
  - reflexivity.
  - repeat constructor.
  - exists s'. split; [exact Hfeed|].
    specialize (Hacc eq_refl).
    assert (Hh : handoffs (log s') = 3%nat /\ queue_size (config s') = 1%Z).
    { vm_compute in Hfeed. injection Hfeed as <-. split; reflexivity. }
    destruct Hh as (Hh & Hc). rewrite Hh in Hacc.
    change (handoffs (log (started cfg_tiny_queue))) with 0%nat in Hacc.
    change (length (scheduled (started cfg_tiny_queue))) with 0%nat in Hacc.
    repeat split; try assumption. lia.
Defined.

(** ** Speech followed by silence *)

Lemma feed_app (fs gs : list Frame) :
  forall s, feed s (fs ++ gs) = (s' <- feed s fs ;; feed s' gs).
Proof.
  induction fs as [|f fs IH]; intros s; simpl; [reflexivity|].
  destruct (_audio_callback s (indata f) (frames f) (status f)); simpl;
    [apply IH | reflexivity].
Qed.

(** The receiver at the stop test of a frame, when it was recording. *)
Lemma at_stop_test_recording (s : AudioReceiver) (f : Frame) :
  recording s = true ->
  let s2 := at_stop_test s f in
  after_callback s f = (if _should_stop_recording s2 then after_stop s2 else s2) /\
  recording s2 = true /\
  config s2 = config s /\
  recording_duration s2 = (recording_duration s + frame_duration s (frames f))%Q /\
  silence_counter s2
  = (if rms_le (rms_of (indata f)) (audio_threshold (config s))
     then (silence_counter s + frame_duration s (frames f))%Q else 0%Q) /\
  audio_frames s2 = audio_frames s ++ [indata f] /\
  handoffs (log s2) = handoffs (log s) /\
  scheduled s2 = scheduled s /\
  accepts s2 = accepts s.
Proof.
  intros Hrec s2. unfold s2, after_callback, at_stop_test.
  rewrite detect_recording by (autorewrite with fields; exact Hrec).
  set (s1 := update_pre_roll (warn_status s (status f)) (indata f) (frames f)).
  assert (Hc : config s1 = config s)
    by (unfold s1; autorewrite with fields; reflexivity).
  assert (Hr1 : recording s1 = true)
    by (unfold s1; autorewrite with fields; exact Hrec).
  rewrite (frame_duration_same s1 s _ Hc), Hr1.
  autorewrite with fields. rewrite Hc, Hr1. unfold s1. autorewrite with fields.
  repeat split; try reflexivity.
  apply accepts_same; autorewrite with fields; reflexivity.
Qed.

(** Frames above the threshold on a recording receiver whose silence run
    is zero: nothing completes under [max_duration]. *)
Lemma feed_speech (ls : list Frame) :
  forall s : AudioReceiver,
    recording s = true ->
    silence_counter s = 0%Q ->
    (0 < sample_rate (config s))%Z ->
    (0 < silence_threshold (config s))%Q ->
    Forall (fun f => (0 < frames f)%Z /\ loud (config s) f = true) ls ->
    (accumulate (config s) (recording_duration s) ls < max_duration (config s))%Q ->
    exists s',
      feed s ls = Ok s' /\
      config s' = config s /\
      recording s' = true /\
      silence_counter s' = 0%Q /\
      recording_duration s' = accumulate (config s) (recording_duration s) ls /\
      audio_frames s' = audio_frames s ++ map indata ls /\
      handoffs (log s') = handoffs (log s) /\
      scheduled s' = scheduled s /\
      accepts s' = accepts s.
Proof.
  induction ls as [|f ls IH]; intros s Hrec Hsc Hsr Hsil Hall Hmax.
  - exists s. simpl. rewrite app_nil_r. repeat split; auto.
  - inversion Hall as [|? ? [Hf Hloud] Hall']; subst.
    rewrite accumulate_cons in *.
    assert (Hpos : Forall (fun f => (0 < frames f)%Z) ls)
      by (eapply Forall_impl; [|exact Hall']; simpl; tauto).
    pose proof (accumulate_mono (config s) ls Hsr Hpos
                  (recording_duration s
                   + inject_Z (frames f) / inject_Z (sample_rate (config s)))%Q)
      as Hmono.
    destruct (at_stop_test_recording s f Hrec)
      as (Hafter & Hr2 & Hc2 & Hrd & Hs2 & Hfr & Hh & Hsch & Hacp).
    rewrite (rms_gt_not_le _ _ Hloud) in Hs2.
    assert (Hstop : _should_stop_recording (at_stop_test s f) = false).
    { destruct (_should_stop_recording (at_stop_test s f)) eqn:E; [|reflexivity].
      apply should_stop_iff in E. rewrite Hc2, Hrd, Hs2 in E.
      unfold frame_duration in E. lra. }
    rewrite Hstop in Hafter.
    simpl. rewrite audio_callback_ok by lia. simpl. rewrite Hafter.
    destruct (IH (at_stop_test s f)) as (s' & Hfeed & Hc' & Hr' & Hs' & Hrd' & Hfr' & Hh' & Hsch' & Hacp');
      try assumption.
    + rewrite Hc2. exact Hsr.
    + rewrite Hc2. exact Hsil.
    + rewrite Hc2. exact Hall'.
    + rewrite Hc2, Hrd. exact Hmax.
    + exists s'. rewrite Hc2, Hrd in *. rewrite Hfr, <- app_assoc in Hfr'.
      repeat split; try assumption; congruence.
Qed.

(** Frames of silence on a recording receiver: nothing completes while the
    silence run is under [silence_threshold] and the duration under
    [max_duration]. *)
Lemma feed_silence (qs : list Frame) :
  forall s : AudioReceiver,
    recording s = true ->
    (0 < sample_rate (config s))%Z ->
    Forall (fun f => (0 < frames f)%Z /\
                     rms_le (rms_of (indata f)) (audio_threshold (config s)) = true)
      qs ->
    (accumulate (config s) (silence_counter s) qs < silence_threshold (config s))%Q ->
    (accumulate (config s) (recording_duration s) qs < max_duration (config s))%Q ->
    exists s',
      feed s qs = Ok s' /\
      config s' = config s /\
      recording s' = true /\
      silence_counter s' = accumulate (config s) (silence_counter s) qs /\
      recording_duration s' = accumulate (config s) (recording_duration s) qs /\
      audio_frames s' = audio_frames s ++ map indata qs /\
      handoffs (log s') = handoffs (log s) /\
      scheduled s' = scheduled s /\
      accepts s' = accepts s.
Proof.
  induction qs as [|f qs IH]; intros s Hrec Hsr Hall Hsil Hmax.
  - exists s. simpl. rewrite app_nil_r. repeat split; auto.
  - inversion Hall as [|? ? [Hf Hq] Hall']; subst.
    rewrite accumulate_cons in *.
    assert (Hpos : Forall (fun f => (0 < frames f)%Z) qs)
      by (eapply Forall_impl; [|exact Hall']; simpl; tauto).
    pose proof (accumulate_mono (config s) qs Hsr Hpos) as Hmono.
    pose proof (Hmono (silence_counter s
                       + inject_Z (frames f) / inject_Z (sample_rate (config s)))%Q)
      as Hm1.
    pose proof (Hmono (recording_duration s
                       + inject_Z (frames f) / inject_Z (sample_rate (config s)))%Q)
      as Hm2.
    destruct (at_stop_test_recording s f Hrec)
      as (Hafter & Hr2 & Hc2 & Hrd & Hs2 & Hfr & Hh & Hsch & Hacp).
    rewrite Hq in Hs2.
    assert (Hstop : _should_stop_recording (at_stop_test s f) = false).
    { destruct (_should_stop_recording (at_stop_test s f)) eqn:E; [|reflexivity].
      apply should_stop_iff in E. rewrite Hc2, Hrd, Hs2 in E.
      unfold frame_duration in E. lra. }
    rewrite Hstop in Hafter.
    simpl. rewrite audio_callback_ok by lia. simpl. rewrite Hafter.
    destruct (IH (at_stop_test s f)) as (s' & Hfeed & Hc' & Hr' & Hs' & Hrd' & Hfr' & Hh' & Hsch' & Hacp');
      try assumption.
    + rewrite Hc2. exact Hsr.
    + rewrite Hc2. exact Hall'.
    + rewrite Hc2, Hs2. exact Hsil.
    + rewrite Hc2, Hrd. exact Hmax.
    + exists s'. rewrite Hc2, Hrd, Hs2 in *. rewrite Hfr, <- app_assoc in Hfr'.
      repeat split; try assumption; congruence.
Qed.

(** The frame that starts a recording: the utterance buffer is the
    pre-roll buffer followed by the frame. *)
Lemma at_stop_test_start (s : AudioReceiver) (f : Frame) :
  recording s = false ->
  loud (config s) f = true ->
  let s2 := at_stop_test s f in
  audio_frames s2 = pre_roll_buffer s2 ++ [indata f] /\
  scheduled s2 = scheduled s /\
  accepts s2 = accepts s.
Proof.
  intros Hrec Hloud s2. unfold s2, at_stop_test.
  rewrite detect_start;
    [| autorewrite with fields; exact Hrec
     | autorewrite with fields; exact Hloud].
  autorewrite with fields. repeat split.
  apply accepts_same; autorewrite with fields; reflexivity.
Qed.



(** ** The drain loop *)

Lemma logger_all_fields (l : list LogRecord) :
  forall s, terminate_flag (logger_all s l) = terminate_flag s /\
            config (logger_all s l) = config s /\
            debug_mode (logger_all s l) = debug_mode s.
Proof.
  induction l as [|r l IH]; intros s; simpl; [auto|].
  destruct (IH (logger s r)) as (H1 & H2 & H3). auto.
Qed.

Section DrainingFacts.

Context {B : Type} `{TranscriptionService B}.
Variable transcription_service : B.
Variable on_transcription : string -> result unit.
Variable _save_debug_data : ndarray -> string -> result unit.

(** What [_transcribe_audio] does to the receiver: the sink gets the
    forwarded text; the flag, the configuration and the queue stay. *)
Lemma transcribe_audio_effect (s : AudioReceiver) (audio_data : ndarray) :
  let s' := _transcribe_audio transcription_service on_transcription
              _save_debug_data s audio_data in
  sink_calls s' = sink_calls s ++ forwarded transcription_service audio_data /\
  terminate_flag s' = terminate_flag s /\
  config s' = config s /\
  audio_queue s' = audio_queue s /\
  scheduled s' = scheduled s.
Proof.
  intros s'.
  destruct (transcribe_audio_channel transcription_service on_transcription
              _save_debug_data s audio_data) as (Hq & Hsch).
  fold s' in Hq, Hsch.
  split; [|split; [|split; [|split; assumption]]];
    unfold s', _transcribe_audio, transcribe_try, forwarded;
    destruct (transcribe transcription_service audio_data) as [r l]; simpl;
    destruct (logger_all_channel l (logger s LogSendingAudio)) as (_ & _ & Hk);
    destruct (logger_all_fields l (logger s LogSendingAudio)) as (Ht & Hc & _);
    simpl in Hk, Ht, Hc;
    (destruct r as [[res|]|e]; simpl;
     [ destruct (truthy (text res)); simpl;
       [ destruct (on_transcription (text res)); simpl;
         [ destruct (debug_mode _); simpl;
           [ destruct (_save_debug_data audio_data (text res)); simpl | ] | ] | ]
     | | ]);
    rewrite ?app_nil_r; congruence.
Qed.

(** Draining a queue: two moves per item, then one more to the [get()]
    where the coroutine is suspended. *)
Lemma drain_run_queue (q : list ndarray) :
  forall (s : AudioReceiver) (fuel : nat),
    terminate_flag s = false ->
    audio_queue s = q ->
    (2 * length q + 1 <= fuel)%nat ->
    exists s',
      drain_run transcription_service on_transcription _save_debug_data
        fuel AtWhile s = (AtGet, s') /\
      audio_queue s' = [] /\
      terminate_flag s' = false /\
      scheduled s' = scheduled s /\
      sink_calls s'
      = sink_calls s ++ flat_map (forwarded transcription_service) q.
Proof.
  induction q as [|a q IH]; intros s fuel Hflag Hq Hfuel.
  - destruct fuel as [|fuel]; [simpl in Hfuel; lia|].
    exists s. simpl. rewrite Hflag.
    destruct fuel; simpl; rewrite ?Hq, ?app_nil_r; auto.
  - destruct fuel as [|[|fuel]]; try (simpl in Hfuel; lia).
    cbn [drain_run drain_step]. rewrite Hflag. cbn [drain_run drain_step].
    rewrite Hq.
    set (s1 := _transcribe_audio _ _ _ _ _).
    destruct (transcribe_audio_effect (set_audio_queue s q) a)
      as (Hk & Ht & _ & Hq1 & Hs1).
    fold s1 in Hk, Ht, Hq1, Hs1. simpl in Hk, Ht, Hq1, Hs1.
    destruct (IH s1 fuel) as (s' & Hrun & Hq' & Ht' & Hs' & Hk').
    + rewrite Ht. exact Hflag.
    + exact Hq1.
    + simpl in Hfuel. lia.
    + exists s'. rewrite Hk, <- app_assoc in Hk'.
      repeat split; try assumption. congruence.
Qed.

End DrainingFacts.

(** X6. Left alone with a queue of utterances and no shutdown, the drain
    loop takes them in order, transcribes each one once and gives the sink
    the non-empty texts in the order of the queue; it ends suspended in
    [get()] on the empty queue, and more moves change nothing. *)
Theorem X6_drain_in_queue_order {B : Type} `{TranscriptionService B}
    (svc : B) (sink : string -> result unit)
    (save : ndarray -> string -> result unit) (s : AudioReceiver)
    (fuel : nat) :
  terminate_flag s = false ->
  (2 * length (audio_queue s) + 1 <= fuel)%nat ->
  exists s',
    drain_run svc sink save fuel AtWhile s = (AtGet, s') /\
    audio_queue s' = [] /\
    drain_step svc sink save AtGet s' = None /\
    sink_calls s' = sink_calls s ++ flat_map (forwarded svc) (audio_queue s).
Proof.
  intros Hflag Hfuel.
  destruct (drain_run_queue svc sink save (audio_queue s) s fuel Hflag eq_refl
              Hfuel) as (s' & Hrun & Hq & _ & _ & Hk).
  exists s'. repeat split; try assumption.
  unfold drain_step. rewrite Hq. reflexivity.
Qed.

Lemma X6_drain_in_queue_order_witness :
  exists s',
    drain_run stub_counting sink_ok save_ok 9 AtWhile queued_example
    = (AtGet, s') /\
    audio_queue s' = [] /\
    sink_calls s' = ["one"; "many"]%string.
Proof.
  destruct (X6_drain_in_queue_order stub_counting sink_ok save_ok
              queued_example 9) as (s' & Hrun & Hq & _ & Hk).
  - reflexivity.
  - simpl. lia.
  - exists s'. repeat split; assumption.
Defined.

(** X7. After shutdown the queue is not drained. With the flag set, the
    drain loop at its loop test returns at once and leaves every queued
    utterance where it is; a loop that was about to take an utterance
    transcribes that one and returns, leaving the rest. *)
Theorem X7_shutdown_leaves_queue {B : Type} `{TranscriptionService B}
    (svc : B) (sink : string -> result unit)
    (save : ndarray -> string -> result unit) (s : AudioReceiver)
    (fuel : nat) :
  terminate_flag s = true ->
  (2 <= fuel)%nat ->
  drain_run svc sink save fuel AtWhile s = (Returned, s) /\
  (forall a rest,
     audio_queue s = a :: rest ->
     exists s',
       drain_run svc sink save fuel AtGet s = (Returned, s') /\
       audio_queue s' = rest /\
       sink_calls s' = sink_calls s ++ forwarded svc a).
Proof.
  intros Hflag Hfuel.
  destruct fuel as [|[|fuel]]; try lia.
  split.
  - cbn [drain_run drain_step]. rewrite Hflag. reflexivity.
  - intros a rest Hq. cbn [drain_run drain_step]. rewrite Hq.
    set (s1 := _transcribe_audio _ _ _ _ _).
    destruct (transcribe_audio_effect svc sink save (set_audio_queue s rest) a)
      as (Hk & Ht & _ & Hq1 & _).
    fold s1 in Hk, Ht, Hq1. simpl in Hk, Ht, Hq1.
    exists s1. cbn [drain_run drain_step]. rewrite Ht, Hflag.
    destruct fuel; repeat split; assumption.
Qed.

Lemma X7_shutdown_leaves_queue_witness :
  drain_run stub_counting sink_ok save_ok 5 AtWhile (stop queued_example)
  = (Returned, stop queued_example) /\
  length (audio_queue (stop queued_example)) = 4%nat.
Proof.
  destruct (X7_shutdown_leaves_queue stub_counting sink_ok save_ok
              (stop queued_example) 5) as (Hret & _).
  - reflexivity.
  - lia.
  - split; [exact Hret | reflexivity].
Defined.

(** ** The bound of the queue *)

Lemma put_step_bound (s s' : AudioReceiver) :
  put_step s = Some s' ->
  (0 < queue_size (config s))%Z ->
  config s' = config s /\
  (Z.of_nat (length (audio_queue s')) <= queue_size (config s))%Z.
Proof.
  unfold put_step, full.
  destruct (scheduled s) as [|a rest]; [discriminate|].
  destruct (Z.leb_spec (queue_size (config s)) 0); [lia|].
  destruct (Z.leb_spec (queue_size (config s))
              (Z.of_nat (length (audio_queue s)))); [discriminate|].
  intros E _. injection E as <-. simpl. rewrite length_app. simpl.
  split; [reflexivity | lia].
Qed.



(** ** The text given to the sink *)

Lemma lstrip_blank (s : string) :
  lstrip s = EmptyString <-> all_space s = true.
Proof.
  induction s as [|c s IH]; simpl; [tauto|].
  destruct (is_space c); simpl; [exact IH|].
  split; discriminate.
Qed.

Lemma lstrip_first (s : string) :
  lstrip s = EmptyString \/
  exists c, first_char (lstrip s) = Some c /\ is_space c = false.
Proof.
  induction s as [|c s IH]; simpl; [auto|].
  destruct (is_space c) eqn:E; [exact IH|].
  right. exists c. auto.
Qed.

Lemma rstrip_blank (s : string) :
  rstrip s = EmptyString <-> all_space s = true.
Proof.
  induction s as [|c s IH]; simpl; [tauto|].
  destruct (rstrip s) as [|c' r].
  - destruct (is_space c); simpl.
    + split; [intros _; apply IH; reflexivity | reflexivity].
    + split; discriminate.
  - split; [discriminate|]. intros E. apply andb_true_iff in E.
    destruct E as (_ & E). apply IH in E. discriminate.
Qed.

Lemma rstrip_first (s : string) :
  rstrip s <> EmptyString -> first_char (rstrip s) = first_char s.
Proof.
  destruct s as [|c s]; simpl; [congruence|].
  destruct (rstrip s); [|reflexivity].
  destruct (is_space c); [congruence | reflexivity].
Qed.

Lemma rstrip_last (s : string) :
  rstrip s = EmptyString \/
  exists c, last_char (rstrip s) = Some c /\ is_space c = false.
Proof.
  induction s as [|c s IH]; simpl; [auto|].
  destruct (rstrip s) as [|c' r].
  - destruct (is_space c) eqn:E; [auto|].
    right. exists c. auto.
  - right. destruct IH as [IH | IH]; [discriminate|]. exact IH.
Qed.

Lemma strip_blank (s : string) :
  strip s = EmptyString <-> all_space s = true.
Proof.
  unfold strip. split.
  - intros E. apply rstrip_blank in E. apply lstrip_blank.
    destruct (lstrip_first s) as [H | (c & Hc & Hsp)]; [exact H|].
    destruct (lstrip s); [reflexivity|].
    simpl in Hc, E. injection Hc as ->. rewrite Hsp in E. discriminate.
  - intros E. apply lstrip_blank in E. rewrite E. reflexivity.
Qed.

Lemma strip_trimmed (s : string) :
  strip s = EmptyString \/ trimmed (strip s).
Proof.
  unfold strip.
  destruct (rstrip_last (lstrip s)) as [E | Hlast]; [auto|].
  right. split; [|exact Hlast].
  assert (Hne : rstrip (lstrip s) <> EmptyString).
  { destruct Hlast as (c & Hc & _). intros E. rewrite E in Hc. discriminate. }
  rewrite (rstrip_first _ Hne).
  destruct (lstrip_first s) as [E | Hfirst]; [|exact Hfirst].
  rewrite E in Hne. simpl in Hne. congruence.
Qed.

Lemma truthy_strip (s : string) :
  truthy (strip s) = true -> trimmed (strip s).
Proof.
  intros Ht. destruct (strip_trimmed s) as [E | H]; [|exact H].
  rewrite E in Ht. discriminate.
Qed.

Lemma chirp_forwarded_trimmed (chirp : GoogleChirpService) (audio_data : ndarray) :
  Forall trimmed (forwarded chirp audio_data).
Proof.
  unfold forwarded. simpl. unfold chirp_transcribe, chirp_try.
  destruct (_prepare_audio _ _ _) as [wav|]; simpl; [|constructor].
  destruct (chirp_client chirp) as [recognize|]; simpl; [|constructor].
  destruct (recognize _) as [response|]; simpl; [|constructor].
  destruct (results response) as [|r rs]; simpl; [constructor|].
  destruct (alternatives r) as [|alt al]; simpl; [constructor|].
  destruct (truthy (strip (transcript alt))) eqn:E; constructor;
    [apply truthy_strip; exact E | constructor].
Qed.

Lemma whisper_forwarded_trimmed (whisper : OpenAIWhisperService)
    (audio_data : ndarray) :
  Forall trimmed (forwarded whisper audio_data).
Proof.
  unfold forwarded. simpl. unfold whisper_transcribe, whisper_try.
  destruct (_prepare_audio _ _ _) as [wav|]; simpl; [|constructor].
  destruct (whisper_client whisper) as [create|]; simpl; [|constructor].
  destruct (create _) as [response|]; simpl; [|constructor].
  destruct (getitem response "text") as [t|]; simpl; [|constructor].
  destruct (truthy (strip t)) eqn:E; constructor;
    [apply truthy_strip; exact E | constructor].
Qed.

(** X9. Whatever the two services hear, the text the receiver gives to
    the sink is trimmed: it is not empty and has no white space at its
    start or its end. A transcript of white space only is therefore not
    forwarded. *)
Theorem X9_sink_text_is_trimmed (chirp : GoogleChirpService)
    (whisper : OpenAIWhisperService) (sink : string -> result unit)
    (save : ndarray -> string -> result unit) (s : AudioReceiver)
    (audio_data : ndarray) :
  (exists ts,
     sink_calls (_transcribe_audio chirp sink save s audio_data)
     = sink_calls s ++ ts /\ Forall trimmed ts) /\
  (exists ts,
     sink_calls (_transcribe_audio whisper sink save s audio_data)
     = sink_calls s ++ ts /\ Forall trimmed ts) /\
  (forall wav create response t,
     whisper_sf_write whisper audio_data (tc_sample_rate (whisper_config whisper))
     = Ok wav ->
     whisper_client whisper = Some create ->
     create {| whisper_model := "whisper-1"%string;
               whisper_file := wav;
               whisper_file_name := "audio.wav"%string;
               whisper_language := before_dash (language (whisper_config whisper)) |}
     = Ok response ->
     getitem response "text"%string = Ok t ->
     all_space t = true ->
     sink_calls (_transcribe_audio whisper sink save s audio_data)
     = sink_calls s).
Proof.
  split; [|split].
  - exists (forwarded chirp audio_data). split.
    + apply (transcribe_audio_effect chirp sink save s audio_data).
    + apply chirp_forwarded_trimmed.
  - exists (forwarded whisper audio_data). split.
    + apply (transcribe_audio_effect whisper sink save s audio_data).
    + apply whisper_forwarded_trimmed.
  - intros wav create response t Hw Hc Hr Ht Hblank.
    destruct (transcribe_audio_effect whisper sink save s audio_data)
      as (Hk & _).
    rewrite Hk. unfold forwarded. simpl.
    unfold whisper_transcribe, whisper_try, _prepare_audio.
    rewrite Hw, Hc, Hr, Ht. simpl.
    apply strip_blank in Hblank. rewrite Hblank. simpl.
    apply app_nil_r.
Qed.

(** ** The conversation history *)

Lemma add_message_most_recent (h : ConversationHistory) (m : Message)
    (hist : list Message) :
  messages h = most_recent (Z.to_nat (max_length h)) hist ->
  messages (add_message h m)
  = most_recent (Z.to_nat (max_length h)) (hist ++ [m]).
Proof.
  intros E. rewrite <- most_recent_snoc. rewrite <- E. reflexivity.
Qed.

Lemma add_messages_most_recent (ms : list Message) :
  forall (h : ConversationHistory) (hist : list Message),
    messages h = most_recent (Z.to_nat (max_length h)) hist ->
    messages (fold_left add_message ms h)
    = most_recent (Z.to_nat (max_length h)) (hist ++ ms) /\
    max_length (fold_left add_message ms h) = max_length h.
Proof.
  induction ms as [|m ms IH]; intros h hist E; simpl.
  - rewrite app_nil_r. auto.
  - destruct (IH (add_message h m) (hist ++ [m])) as (H1 & H2).
    + apply (add_message_most_recent h m hist E).
    + simpl in H1, H2. rewrite <- app_assoc in H1. auto.
Qed.

(** X10. The conversation history keeps the most recent [max_length]
    messages: after any number of [add_message], it holds the last
    [max_length] of the messages it had and was given, oldest first, and
    never more. *)
Theorem X10_history_keeps_most_recent (h : ConversationHistory)
    (ms : list Message) :
  (length (messages h) <= Z.to_nat (max_length h))%nat ->
  messages (fold_left add_message ms h)
  = most_recent (Z.to_nat (max_length h)) (messages h ++ ms) /\
  (length (messages (fold_left add_message ms h))
   <= Z.to_nat (max_length h))%nat.
Proof.
  intros Hlen.
  destruct (add_messages_most_recent ms h (messages h)) as (H1 & _).
  { symmetry. apply most_recent_short. exact Hlen. }
  split; [exact H1|]. rewrite H1. apply most_recent_length.
Qed.

Lemma X10_history_keeps_most_recent_witness :
  map msg_content
    (messages
       (fold_left add_message
          [mkMessage "a" 1 "user" None; mkMessage "b" 2 "user" None;
           mkMessage "c" 3 "user" None]%string (new_history 2)))
  = ["b"; "c"]%string.
Proof.
  destruct (X10_history_keeps_most_recent (new_history 2)
              [mkMessage "a" 1 "user" None; mkMessage "b" 2 "user" None;
               mkMessage "c" 3 "user" None]%string) as (H & _).
  - simpl. lia.
  - rewrite H. reflexivity.
Defined.

(** X11. [get_recent_messages] slices from the end: a positive count
    gives the last [count] messages, all of them when there are fewer. A
    count of zero gives the whole history, not the empty list, as does
    asking the agent for [0] messages; a negative count drops that many
    of the oldest. *)
Theorem X11_recent_messages_slice (a : DeploymentAgent) (count : Z) :
  let h := conversation_history a in
  ((0 < count)%Z ->
   get_recent_messages h count = most_recent (Z.to_nat count) (messages h)) /\
  get_recent_messages h 0 = messages h /\
  ((count < 0)%Z ->
   get_recent_messages h count = skipn (Z.to_nat (- count)) (messages h)) /\
  get_conversation_history a (Some 0%Z) = get_conversation_history a None.
Proof.
  intros h. unfold get_conversation_history. fold h.
  unfold get_recent_messages, slice_from, most_recent.
  repeat split.
  - intros Hc. destruct (Z.ltb_spec (- count) 0); [|lia].
    f_equal. lia.
  - simpl. replace (Z.to_nat (Z.min 0 (Z.of_nat (length (messages h)))))
      with 0%nat by lia. reflexivity.
  - intros Hc. destruct (Z.ltb_spec (- count) 0); [lia|].
    destruct (Z.le_gt_cases (- count) (Z.of_nat (length (messages h)))).
    + f_equal. lia.
    + rewrite !skipn_all2 by lia. reflexivity.
  - simpl. replace (Z.to_nat (Z.min 0 (Z.of_nat (length (messages h)))))
      with 0%nat by lia. reflexivity.
Qed.

(** X12. Every transcription the agent handles is answered: the history
    gains the text as a message of the user and then the reply
    "Received: " followed by the text as a message of the agent, whatever
    the text, and keeps its most recent [max_length] messages; the log
    gains the two records. An input that is not a string gets no
    reply. *)
Theorem X12_transcription_is_answered (now1 now2 : Z) (a : DeploymentAgent)
    (text : string) :
  let h := conversation_history a in
  let a' := _handle_transcription now1 now2 a text in
  let reply := ("Received: " ++ text)%string in
  (length (messages h) <= Z.to_nat (max_length h))%nat ->
  messages (conversation_history a')
  = most_recent (Z.to_nat (max_length h))
      (messages h
       ++ [mkMessage text now1 "user" None;
           mkMessage reply now2 (agent_id a) None]) /\
  agent_log a' = agent_log a ++ [AgentTranscribed text; AgentResponse reply] /\
  (forall v, (forall s, v <> PyStr s) -> process_input v = None).
Proof.
  intros h a' reply Hlen.
  split; [|split].
  - unfold a', _handle_transcription, _send_response. simpl.
    destruct (add_messages_most_recent
                [mkMessage text now1 "user" None;
                 mkMessage reply now2 (agent_id a) None] h (messages h))
      as (H1 & _).
    { symmetry. apply most_recent_short. exact Hlen. }
    exact H1.
  - unfold a', _handle_transcription, _send_response. simpl.
    rewrite <- app_assoc. reflexivity.
  - intros v Hv. destruct v; try reflexivity.
    exfalso. apply (Hv s). reflexivity.
Qed.

Lemma X12_transcription_is_answered_witness :
  map msg_content
    (messages
       (conversation_history
          (_handle_transcription 1 2 (new_agent "listener") "deploy")))
  = ["deploy"; "Received: deploy"]%string.
Proof.
  pose proof (X12_transcription_is_answered 1 2 (new_agent "listener")
                "deploy") as H.
  cbv zeta in H. destruct H as (H & _).
  - simpl. lia.
  - rewrite H. reflexivity.
Defined.

(** ** Building, starting and stopping *)

Lemma new_receiver_known (sf : ndarray -> Z -> result string)
    (config : AudioConfig) (debug : bool) :
  transcription_service_type config = "google-chirp"%string \/
  transcription_service_type config = "openai-whisper"%string ->
  exists svc,
    new_receiver sf config debug
    = Ok {| core := init config debug; service := svc; stream := None;
            drain_tasks := []; start_log := [] |} /\
    match svc with
    | ChirpService c =>
        transcription_service_type config = "google-chirp"%string /\
        chirp_client c = None /\
        tc_project_id (chirp_config c) = project_id config
    | WhisperService w =>
        transcription_service_type config = "openai-whisper"%string /\
        whisper_client w = None /\
        tc_api_key (whisper_config w) = api_key config
    end.
Proof.
  unfold new_receiver, create_transcription_service.
  intros [E | E]; rewrite E; simpl; eexists; split; try reflexivity;
    simpl; auto.
Qed.

(** X13. Credentials are not looked at when the receiver is built. With
    Chirp selected and no project id, or Whisper selected and no API key
    ([None] or the empty string), the receiver is built, and it is [start]
    that fails, with [ValueError], after it has set the loop and before
    the input test, the drain task and the stream: the one record of the
    start is the error. [stop] afterwards touches no stream, whatever the
    driver, and succeeds. *)
Theorem X13_missing_credentials_fail_start
    (sf : ndarray -> Z -> result string) (v : Vendors) (d : Driver)
    (config : AudioConfig) (debug : bool) :
  (transcription_service_type config = "google-chirp"%string /\
   falsy (project_id config) = true) \/
  (transcription_service_type config = "openai-whisper"%string /\
   falsy (api_key config) = true) ->
  exists r e,
    new_receiver sf config debug = Ok r /\
    snd (start v d r) = Raised e /\
    exc_kind e = ValueError /\
    stream (fst (start v d r)) = None /\
    drain_tasks (fst (start v d r)) = [] /\
    start_log (fst (start v d r)) = [LogStartError e] /\
    loop (core (fst (start v d r))) = LoopRunning /\
    forall d',
      stop_receiver d' (fst (start v d r))
      = (set_core (fst (start v d r)) (stop (core (fst (start v d r)))), Ok tt).
Proof.
  intros Hcase.
  destruct (new_receiver_known sf config debug) as (svc & Hnew & Hsvc).
  { destruct Hcase as [(E & _) | (E & _)]; auto. }
  eexists. 
  assert (Hinit : exists e, initialize v svc = Raised e /\ exc_kind e = ValueError).
  { destruct svc as [c | w]; destruct Hsvc as (Ht & _ & Hcred);
      destruct Hcase as [(E & Hf) | (E & Hf)];
      try (rewrite Ht in E; discriminate);
      unfold initialize; rewrite Hcred, Hf; eexists; split; reflexivity. }
  destruct Hinit as (e & Hinit & Hkind).
  exists e. split; [exact Hnew|].
  unfold start, start_try. simpl. rewrite Hinit. simpl.
  repeat split; try assumption.
Qed.

Lemma X13_missing_credentials_fail_start_witness :
  exists r e,
    new_receiver sf_ok cfg_short false = Ok r /\
    snd (start vendors_ok driver_ok r) = Raised e /\
    exc_kind e = ValueError /\
    stream (fst (start vendors_ok driver_ok r)) = None.
Proof.
  destruct (X13_missing_credentials_fail_start sf_ok vendors_ok driver_ok
              cfg_short false) as (r & e & H1 & H2 & H3 & H4 & _).
  - left. split; reflexivity.
  - exists r, e. repeat split; assumption.
Defined.

(** The receiver after [initialize], the input test on the recording [x]
    and the creation of the drain task. *)
Lemma start_reaches_stream (v : Vendors) (d : Driver) (r : Receiver)
    (svc : AnyService) (x : ndarray) :
  initialize v (service r) = Ok svc ->
  sd_rec d (int_of_float (inject_Z (2 * sample_rate (config (core r))))) = Ok x ->
  let verdict := if rms_lt (rms_of x) (1 # 1000) then LogVeryLow
                 else LogTestPassed in
  let r1 := {| core := set_loop (core r) LoopRunning; service := svc;
               stream := stream r;
               drain_tasks := drain_tasks r ++ [AtWhile];
               start_log := start_log r
                            ++ [LogTesting 2; LogRmsLevel (rms_of x);
                                LogThresholdLevel
                                  (audio_threshold (config (core r)));
                                verdict] |} in
  start_try v d r
  = match open_stream d with
    | Raised e => (r1, Raised e)
    | Ok _ =>
        match start_stream d with
        | Raised e => (set_stream r1 (Some StreamOpened), Raised e)
        | Ok _ =>
            (start_logger (set_stream r1 (Some StreamActive))
               LogStreamStarted, Ok tt)
        end
    end.
Proof.
  intros Hinit Hrec verdict r1.
  unfold start_try. cbn -[int_of_float Z.mul rms_lt rms_of].
  rewrite Hinit. unfold _test_audio_input.
  cbn -[int_of_float Z.mul rms_lt rms_of].
  rewrite Hrec. unfold r1, verdict.
  destruct (rms_lt (rms_of x) (1 # 1000));
    (destruct (open_stream d); [destruct (start_stream d)|]);
    unfold start_logger, set_stream, create_drain_task, set_service, set_core;
    cbn -[int_of_float Z.mul rms_lt rms_of];
    rewrite <- ?app_assoc; reflexivity.
Qed.

(** X14. The input test is advisory. Once the service is initialized and
    the driver records, opens and starts, [start] succeeds whatever the
    level of the recording: the stream is active, one drain task is
    created at its loop test and the loop is set. The level only decides
    between a warning and a note in the log; a recording of silence gets
    the warning. *)
Theorem X14_input_test_is_advisory (v : Vendors) (d : Driver) (r : Receiver)
    (svc : AnyService) (x : ndarray) :
  initialize v (service r) = Ok svc ->
  sd_rec d (int_of_float (inject_Z (2 * sample_rate (config (core r))))) = Ok x ->
  open_stream d = Ok tt ->
  start_stream d = Ok tt ->
  snd (start v d r) = Ok tt /\
  stream (fst (start v d r)) = Some StreamActive /\
  drain_tasks (fst (start v d r)) = drain_tasks r ++ [AtWhile] /\
  core (fst (start v d r)) = set_loop (core r) LoopRunning /\
  service (fst (start v d r)) = svc /\
  start_log (fst (start v d r))
  = start_log r
    ++ [LogTesting 2; LogRmsLevel (rms_of x);
        LogThresholdLevel (audio_threshold (config (core r)));
        if rms_lt (rms_of x) (1 # 1000) then LogVeryLow else LogTestPassed;
        LogStreamStarted] /\
  (x <> [] -> Forall (fun a => a == 0)%Q x ->
   rms_lt (rms_of x) (1 # 1000) = true).
Proof.
  intros Hinit Hrec Hopen Hstart.
  unfold start. rewrite (start_reaches_stream v d r svc x Hinit Hrec).
  rewrite Hopen, Hstart. simpl.
  repeat split.
  - rewrite <- app_assoc. reflexivity.
  - intros Hne Hzero. destruct x as [|a x]; [congruence|].
    unfold rms_of, rms_lt.
    assert (Hsum : forall l, Forall (fun a => a == 0)%Q l ->
                             (square_sum l == 0)%Q).
    { induction 1 as [|b l Hb _ IH]; simpl; [reflexivity|].
      rewrite Hb, IH. reflexivity. }
    specialize (Hsum _ Hzero).
    set (n := inject_Z (Z.of_nat (length (a :: x)))).
    assert (Hm : (square_sum (a :: x) / n == 0)%Q).
    { rewrite Hsum. unfold Qdiv. apply Qmult_0_l. }
    apply andb_true_iff. split; [reflexivity|].
    apply negb_true_iff.
    destruct (Qle_bool _ _) eqn:E; [|reflexivity].
    apply Qle_bool_iff in E. rewrite Hm in E.
    exfalso. revert E. vm_compute. intros E. apply E. reflexivity.
Qed.

Lemma X14_input_test_is_advisory_witness :
  new_receiver sf_ok cfg_with_project false = Ok receiver_with_project /\
  snd (start vendors_ok driver_ok receiver_with_project) = Ok tt /\
  stream (fst (start vendors_ok driver_ok receiver_with_project))
  = Some StreamActive.
Proof.
  split; [reflexivity|].
  destruct (X14_input_test_is_advisory vendors_ok driver_ok
              receiver_with_project
              (ChirpService
                 {| chirp_config := transcription_config_of cfg_with_project false;
                    chirp_sf_write := sf_ok;
                    chirp_client := Some (fun _ => Ok {| results := [] |}) |})
              (repeat 0%Q 8))
    as (H1 & H2 & _); try reflexivity.
  split; assumption.
Defined.

(** X15. When the stream cannot be opened, [start] logs the error and
    raises it again. The drain task is already created and has not moved,
    and no stream is recorded; so [stop] afterwards skips the stream,
    whatever the driver, and succeeds, and the task returns at its first
    move without waiting on the queue. *)
Theorem X15_stream_failure (v : Vendors) (d : Driver) (r : Receiver)
    (svc : AnyService) (x : ndarray) (e : Exception) :
  initialize v (service r) = Ok svc ->
  sd_rec d (int_of_float (inject_Z (2 * sample_rate (config (core r))))) = Ok x ->
  open_stream d = Raised e ->
  stream r = None ->
  snd (start v d r) = Raised e /\
  stream (fst (start v d r)) = None /\
  drain_tasks (fst (start v d r)) = drain_tasks r ++ [AtWhile] /\
  last (start_log (fst (start v d r))) LogStreamStarted = LogStartError e /\
  forall (d' : Driver) (sink : string -> result unit)
         (save : ndarray -> string -> result unit),
  exists r',
    stop_receiver d' (fst (start v d r)) = (r', Ok tt) /\
    stream r' = None /\
    drain_step (service r') sink save AtWhile (core r')
    = Some (Returned, core r').
Proof.
  intros Hinit Hrec Hopen Hnone.
  unfold start. rewrite (start_reaches_stream v d r svc x Hinit Hrec).
  rewrite Hopen. simpl.
  split; [reflexivity|]. split; [exact Hnone|]. split; [reflexivity|].
  split.
  - apply last_last.
  - intros d' sink save. unfold stop_receiver. simpl. rewrite Hnone.
    eexists. split; [reflexivity|]. split; reflexivity.
Qed.

Lemma X15_stream_failure_witness :
  snd (start vendors_ok driver_no_device receiver_with_project)
  = Raised (Exc OtherException "Error querying device"%string) /\
  drain_tasks (fst (start vendors_ok driver_no_device receiver_with_project))
  = [AtWhile] /\
  stream (fst (start vendors_ok driver_no_device receiver_with_project)) = None.
Proof.
  destruct (X15_stream_failure vendors_ok driver_no_device
              receiver_with_project
              (ChirpService
                 {| chirp_config := transcription_config_of cfg_with_project false;
                    chirp_sf_write := sf_ok;
                    chirp_client := Some (fun _ => Ok {| results := [] |}) |})
              (repeat (1 # 10)%Q 8)
              (Exc OtherException "Error querying device"%string))
    as (H1 & H2 & H3 & _); try reflexivity.
  repeat split; assumption.
Defined.

(** ** The command line *)

(** X16. What [listen] checks before it starts the agent. It exits with
    status 1 when [GOOGLE_CLOUD_PROJECT] is unset or empty, whichever
    service is selected, and then when [GEMINI_API_KEY] is. Past these
    checks: with Chirp (the default) the project id check of
    [initialize] cannot fail; with Whisper the receiver is built whether
    or not [OPENAI_API_KEY] is set, and without it [initialize] raises
    [ValueError] when the agent is started; any other service name makes
    [agent.initialize()] raise [ValueError] out of [main]. *)
Theorem X16_listen_checks (sf : ndarray -> Z -> result string) (env : Env)
    (n : NumericSettings) (debug : bool) :
  let service_type :=
    getenv_default env "TRANSCRIPTION_SERVICE_TYPE" "google-chirp" in
  (falsy (env "GOOGLE_CLOUD_PROJECT"%string) = true ->
   listen_setup sf env n debug
   = Exited 1 "Error: GOOGLE_CLOUD_PROJECT environment variable not set") /\
  (falsy (env "GOOGLE_CLOUD_PROJECT"%string) = false ->
   falsy (env "GEMINI_API_KEY"%string) = true ->
   listen_setup sf env n debug
   = Exited 1 "Error: GEMINI_API_KEY environment variable not set") /\
  (falsy (env "GOOGLE_CLOUD_PROJECT"%string) = false ->
   falsy (env "GEMINI_API_KEY"%string) = false ->
   (service_type = "google-chirp"%string ->
    exists r,
      listen_setup sf env n debug = Ready r /\
      forall v client,
        speech_client v = Ok client ->
        exists svc, initialize v (service r) = Ok svc) /\
   (service_type = "openai-whisper"%string ->
    exists r,
      listen_setup sf env n debug = Ready r /\
      (falsy (env "OPENAI_API_KEY"%string) = true ->
       forall v, exists e,
         initialize v (service r) = Raised e /\ exc_kind e = ValueError) /\
      (falsy (env "OPENAI_API_KEY"%string) = false ->
       forall v, exists svc, initialize v (service r) = Ok svc)) /\
   (service_type <> "google-chirp"%string ->
    service_type <> "openai-whisper"%string ->
    listen_setup sf env n debug
    = InitializeRaised
        (Exc ValueError ("Unknown service type: " ++ service_type)%string))).
Proof.
  intros service_type. unfold listen_setup.
  split; [intros ->; reflexivity|].
  split; [intros -> ->; reflexivity|].
  intros Hg Hk. rewrite Hg, Hk.
  unfold _setup_audio_components, new_receiver, create_transcription_service.
  cbn [audio_config_of cli_config transcription_service_type get
       d_transcription_service_type d_debug].
  fold service_type.
  split; [|split].
  - intros E. rewrite E. simpl. eexists. split; [reflexivity|].
    intros v client Hcl. simpl. rewrite Hg, Hcl. simpl. eexists. reflexivity.
  - intros E. rewrite E. simpl. eexists. split; [reflexivity|].
    split.
    + intros Hf v. simpl. rewrite Hf. eexists. split; reflexivity.
    + intros Hf v. simpl. rewrite Hf. eexists. reflexivity.
  - intros H1 H2.
    apply String.eqb_neq in H1. apply String.eqb_neq in H2.
    rewrite H1, H2. reflexivity.
Qed.

Example listen_whisper_without_key :
  exists r e,
    listen_setup sf_ok env_whisper_no_key numbers_example false = Ready r /\
    snd (start vendors_ok driver_ok r) = Raised e /\
    exc_kind e = ValueError /\
    stream (fst (start vendors_ok driver_ok r)) = None.
Proof.
  eexists. eexists. split; [vm_compute; reflexivity|].
  repeat split.
Qed.

(** ** Exceptions of the callback *)


(** ** Malformed answers *)

(** X18. Answers the services do not expect are contained like failures
    of the call. A Chirp result without an alternative, a Whisper answer
    without the key "text", and a service used before [initialize] gave
    it a client each make [transcribe] return the absent result with the
    error logged ([IndexError], [KeyError], [AttributeError]); the
    receiver then calls no sink. *)
Theorem X18_malformed_answers (chirp : GoogleChirpService)
    (whisper : OpenAIWhisperService) (audio_data : ndarray) :
  (forall wav recognize response r rs,
     chirp_sf_write chirp audio_data (tc_sample_rate (chirp_config chirp))
     = Ok wav ->
     chirp_client chirp = Some recognize ->
     recognize (chirp_request (chirp_config chirp) wav) = Ok response ->
     results response = r :: rs ->
     alternatives r = [] ->
     exists e,
       transcribe chirp audio_data
       = (Ok None, [LogSendingAudio; LogChirpError e]) /\
       exc_kind e = IndexError) /\
  (forall wav create response,
     whisper_sf_write whisper audio_data (tc_sample_rate (whisper_config whisper))
     = Ok wav ->
     whisper_client whisper = Some create ->
     create {| whisper_model := "whisper-1"%string;
               whisper_file := wav;
               whisper_file_name := "audio.wav"%string;
               whisper_language := before_dash (language (whisper_config whisper)) |}
     = Ok response ->
     (forall t, ~ In ("text"%string, t) response) ->
     exists e,
       transcribe whisper audio_data
       = (Ok None, [LogSendingWhisper; LogWhisperError e]) /\
       exc_kind e = KeyError) /\
  (forall wav,
     chirp_sf_write chirp audio_data (tc_sample_rate (chirp_config chirp))
     = Ok wav ->
     chirp_client chirp = None ->
     exists e,
       transcribe chirp audio_data
       = (Ok None, [LogSendingAudio; LogChirpError e]) /\
       exc_kind e = AttributeError) /\
  (forall wav,
     whisper_sf_write whisper audio_data (tc_sample_rate (whisper_config whisper))
     = Ok wav ->
     whisper_client whisper = None ->
     exists e,
       transcribe whisper audio_data
       = (Ok None, [LogSendingWhisper; LogWhisperError e]) /\
       exc_kind e = AttributeError) /\
  (forall (B : Type) (S : TranscriptionService B) (svc : B)
          (sink : string -> result unit)
          (save : ndarray -> string -> result unit) (s : AudioReceiver),
     fst (transcribe svc audio_data) = Ok None ->
     sink_calls (_transcribe_audio svc sink save s audio_data) = sink_calls s).
Proof.
  split; [|split; [|split; [|split]]].
  - intros wav recognize response r rs Hw Hc Hr Hres Halt. simpl.
    unfold chirp_transcribe, chirp_try, _prepare_audio.
    rewrite Hw, Hc, Hr, Hres, Halt. eexists. split; reflexivity.
  - intros wav create response Hw Hc Hr Hno. simpl.
    unfold whisper_transcribe, whisper_try, _prepare_audio.
    rewrite Hw, Hc, Hr.
    assert (Hget : getitem response "text" = Raised (Exc KeyError "text")).
    { clear Hr. induction response as [|[k t] rest IH]; simpl; [reflexivity|].
      destruct (String.eqb_spec k "text") as [-> | Hk].
      - exfalso. apply (Hno t). left. reflexivity.
      - apply IH. intros t' Hin. apply (Hno t'). right. exact Hin. }
    rewrite Hget. eexists. split; reflexivity.
  - intros wav Hw Hc. simpl.
    unfold chirp_transcribe, chirp_try, _prepare_audio.
    rewrite Hw, Hc. eexists. split; reflexivity.
  - intros wav Hw Hc. simpl.
    unfold whisper_transcribe, whisper_try, _prepare_audio.
    rewrite Hw, Hc. eexists. split; reflexivity.
  - intros B S svc sink save s Hnone.
    destruct (transcribe_audio_effect svc sink save s audio_data) as (Hk & _).
    rewrite Hk. unfold forwarded. rewrite Hnone. apply app_nil_r.
Qed.

Lemma X18_malformed_answers_witness :
  (exists e, transcribe chirp_no_alternative [1%Q]
             = (Ok None, [LogSendingAudio; LogChirpError e]) /\
             exc_kind e = IndexError) /\
  (exists e, transcribe whisper_no_text [1%Q]
             = (Ok None, [LogSendingWhisper; LogWhisperError e]) /\
             exc_kind e = KeyError).
Proof.
  destruct (X18_malformed_answers chirp_no_alternative whisper_no_text [1%Q])
    as (Hc & Hw & _).
  split.
  - eapply Hc; reflexivity.
  - eapply Hw; try reflexivity.
    intros t [E | []]. inversion E.
Defined.

(** ** The shutdown flag and the callback *)

Lemma set_flag_detect (s : AudioReceiver) (f : Frame) (b : bool) :
  detect (warn_status (set_terminate_flag s b) (status f)) (indata f)
    (rms_of (indata f)) (frames f)
  = set_terminate_flag
      (detect (warn_status s (status f)) (indata f) (rms_of (indata f))
         (frames f)) b.
Proof.
  unfold detect, update_pre_roll, _start_recording, warn_status.
  destruct (status f); simpl;
    destruct (_ <? _)%Z; simpl;
    destruct (recording s); simpl; try reflexivity;
    destruct (rms_gt _ (audio_threshold (config s))); reflexivity.
Qed.

Lemma set_flag_after_stop (s : AudioReceiver) (b : bool) :
  after_stop (set_terminate_flag s b) = set_terminate_flag (after_stop s) b.
Proof.
  unfold after_stop, enqueue_try, full. simpl.
  destruct (loop s); simpl; try reflexivity;
    destruct (queue_size (config s) <=? 0)%Z; simpl; try reflexivity;
    destruct (queue_size (config s) <=? Z.of_nat (length (audio_queue s)))%Z;
    reflexivity.
Qed.

(** X19. The callback neither reads nor writes the shutdown flag: with
    the flag set it handles a frame exactly as without, so a segment that
    completes after [stop] has set the flag is still handed to the
    queue. *)
Theorem X19_callback_ignores_flag (s : AudioReceiver) (f : Frame) (b : bool) :
  _audio_callback (set_terminate_flag s b) (indata f) (frames f) (status f)
  = match _audio_callback s (indata f) (frames f) (status f) with
    | Ok s' => Ok (set_terminate_flag s' b)
    | Raised e => Raised e
    end.
Proof.
  unfold _audio_callback.
  destruct (frames f =? 0)%Z; [reflexivity|].
  rewrite set_flag_detect.
  set (s1 := detect (warn_status s (status f)) (indata f) (rms_of (indata f))
               (frames f)).
  change (recording (set_terminate_flag s1 b)) with (recording s1).
  destruct (recording s1); [|reflexivity].
  unfold _handle_recording.
  change (sample_rate (config (set_terminate_flag s1 b)))
    with (sample_rate (config s1)).
  destruct (sample_rate (config s1) =? 0)%Z; [reflexivity|].
  assert (Hrec : record_frame (set_terminate_flag s1 b) (indata f)
                   (rms_of (indata f))
                   (frame_duration (set_terminate_flag s1 b) (frames f))
                 = set_terminate_flag
                     (record_frame s1 (indata f) (rms_of (indata f))
                        (frame_duration s1 (frames f))) b).
  { unfold record_frame, frame_duration. simpl.
    destruct (rms_le _ _); reflexivity. }
  rewrite Hrec.
  set (s2 := record_frame s1 _ _ _).
  change (_should_stop_recording (set_terminate_flag s2 b))
    with (_should_stop_recording s2).
  destruct (_should_stop_recording s2); [|reflexivity].
  assert (Hne : audio_frames s2 <> []).
  { unfold s2. rewrite record_frame_frames.
    intros E. apply app_eq_nil in E. destruct E; discriminate. }
  rewrite (stop_recording_ok s2 Hne).
  rewrite (stop_recording_ok (set_terminate_flag s2 b) Hne).
  rewrite set_flag_after_stop. reflexivity.
Qed.

(** ** A start that fails *)

(** X20. A failure of [agent.start()] does not come out of [main]. With
    no stream yet, when [initialize] raises (a missing credential) or the
    stream cannot be opened, [main] logs the error, stops the receiver,
    which touches no stream, logs that the listener stopped and returns:
    the shutdown flag is set and the receiver has logged its stop. When
    it is [stream.start()] that raises, the stream exists and [stop] goes
    to the driver: if [stream.stop()] raises too, that exception comes
    out of [main] and the last record is not written. *)
Theorem X20_start_failure_is_swallowed (v : Vendors) (d : Driver)
    (r : Receiver) (e : Exception) :
  stream r = None ->
  let returned :=
    exists r',
      main_start v d r
      = MainReturned r' [LogUnexpectedError e; LogStoppedGracefully] /\
      terminate_flag (core r') = true /\
      stream r' = None /\
      last (start_log r') LogStreamStarted = LogStartError e /\
      last (log (core r')) LogStartedRecording = LogStopped in
  (initialize v (service r) = Raised e -> returned) /\
  (forall svc x,
     initialize v (service r) = Ok svc ->
     sd_rec d (int_of_float (inject_Z (2 * sample_rate (config (core r)))))
     = Ok x ->
     (open_stream d = Raised e -> returned) /\
     (forall e',
        open_stream d = Ok tt ->
        start_stream d = Raised e ->
        stop_stream d = Raised e' ->
        exists r',
          main_start v d r = MainRaised r' [LogUnexpectedError e] e' /\
          stream r' = Some StreamOpened)).
Proof.
  intros Hnone returned. split.
  - intros Hinit. unfold returned, main_start, main_finally, start, start_try.
    simpl. rewrite Hinit. simpl. unfold stop_receiver. simpl. rewrite Hnone.
    eexists. split; [reflexivity|]. simpl.
    split; [reflexivity|]. split; [exact Hnone|].
    split; apply last_last.
  - intros svc x Hinit Hrec. split.
    + intros Hopen. unfold returned, main_start, main_finally, start.
      rewrite (start_reaches_stream v d r svc x Hinit Hrec), Hopen.
      unfold stop_receiver. simpl. rewrite Hnone.
      eexists. split; [reflexivity|]. simpl.
      split; [reflexivity|]. split; [reflexivity|].
      split; apply last_last.
    + intros e' Hopen Hstart Hstop. unfold main_start, main_finally, start.
      rewrite (start_reaches_stream v d r svc x Hinit Hrec), Hopen, Hstart.
      unfold stop_receiver. simpl. rewrite Hstop.
      eexists. split; reflexivity.
Qed.

Lemma X20_start_failure_is_swallowed_witness :
  exists r',
    main_start vendors_ok driver_no_device receiver_with_project
    = MainReturned r'
        [LogUnexpectedError (Exc OtherException "Error querying device"%string);
         LogStoppedGracefully] /\
    terminate_flag (core r') = true.
Proof.
  destruct (X20_start_failure_is_swallowed vendors_ok driver_no_device
              receiver_with_project
              (Exc OtherException "Error querying device"%string) eq_refl)
    as (_ & H).
  destruct (H (ChirpService
                 {| chirp_config := transcription_config_of cfg_with_project false;
                    chirp_sf_write := sf_ok;
                    chirp_client := Some (fun _ => Ok {| results := [] |}) |})
              (repeat (1 # 10)%Q 8) eq_refl eq_refl) as (H1 & _).
  destruct (H1 eq_refl) as (r' & Hmain & Hflag & _).
  exists r'. split; assumption.
Defined.
